(** * avalanchego: the snowman block-tree node and the AVM gossip mempool

    A shallow embedding of
    - [snow/consensus/snowman/snowman_block.go] (type [snowmanBlock] with
      [String], [AddChild] and [Accepted]), and
    - [vms/avm/network/gossip.go] (type [gossipMempool] with [Add], [Has]
      and [AddWithoutVerification]),
    followed by the properties the specification states about them.

    Go objects reached through pointers or interface values live in stores:
    blocks in a store of block records, snowball instances in a heap.  A
    nil-able interface value is an [option] of an address.  A run-time panic
    is the result [Panic]; so is the use of an address that holds nothing,
    which Go cannot produce.

    The voting primitive (package snowball) and the consensus engine that
    owns the tree of nodes are not among the sources; they are modelled from
    the specification, and marked so.  The collaborators of the gossip
    mempool (the mempool, the transaction verifier, the bloom filter) are
    interfaces, taken as parameters. *)

From Stdlib Require Import ZArith.
From stdpp Require Import base option list gmap strings.

(** ** Results of Go calls that may panic *)

Inductive result (A : Type) : Type :=
| Ok (a : A)
| Panic.
Arguments Ok {A} a.
Arguments Panic {A}.

#[global] Instance result_ret : MRet result := fun A a => Ok a.

#[global] Instance result_bind : MBind result := fun A B k r =>
  match r with
  | Ok a => k a
  | Panic => Panic
  end.

(** Dereferencing an address in a store: a missing cell is a panic. *)
Definition deref {A : Type} (store : list A) (addr : nat) : result A :=
  match store !! addr with
  | Some a => Ok a
  | None => Panic
  end.

(** ** Package ids *)

Module ids.
(** [ids.ID] is a 32-byte array; nothing here looks inside it, so it is
    read as the number its bytes spell. *)
Definition ID : Type := N.
End ids.

(** ** Package choices *)

Module choices.
Inductive Status : Type :=
| Processing
| Rejected
| Accepted.

#[global] Instance Status_eq_dec : EqDecision Status.
Proof. solve_decision. Defined.
End choices.

(** ** Package snowball *)

Module snowball.

(** Modelled from the spec: [snowball.Parameters] is declared outside the
    sources at hand; the spec gives a sample size K, a quorum threshold
    Alpha and a finality count Beta. *)
Record Parameters : Type := {
  K : nat;
  Alpha : nat;
  Beta : nat
}.

Inductive Factory : Type :=
| SnowballFactory.

(** Modelled from the spec: the voting primitive behind the interface
    [snowball.Consensus] (constructor [NewTree], methods [Add],
    [RecordPoll], [Preference], [Finalized]); its implementation is not
    among the sources.  An instance holds the known alternatives, the
    current preferred alternative, a confidence counter per alternative and
    the finalized flag. *)
Record Tree : Type := {
  params : Parameters;
  alternatives : list ids.ID;
  preference : ids.ID;
  confidence : gmap ids.ID nat;
  finalized : bool
}.

(** Modelled from the spec: a new instance knows the one alternative it is
    created with, which is its preference "with no voting needed until a
    second alternative exists". *)
Definition NewTree (f : Factory) (p : Parameters) (choice : ids.ID) : Tree :=
  {| params := p;
     alternatives := [choice];
     preference := choice;
     confidence := ∅;
     finalized := false |}.

(** Modelled from the spec: [AddAlternative(id)] "registers a new
    alternative"; the preference, the counters and the flag stay. *)
Definition Add (t : Tree) (choice : ids.ID) : Tree :=
  if decide (choice ∈ alternatives t) then t
  else {| params := params t;
          alternatives := alternatives t ++ [choice];
          preference := preference t;
          confidence := confidence t;
          finalized := finalized t |}.

Definition Preference (t : Tree) : ids.ID := preference t.
Definition Finalized (t : Tree) : bool := finalized t.

(** The number of sampled responses a vote bag holds for an alternative. *)
Definition tally (votes : gmap ids.ID nat) (a : ids.ID) : nat :=
  default 0 (votes !! a).

(** Modelled from the spec: the top-voted known alternative; of two with
    the same count the one with the smaller identity wins, the
    "lexicographic by identity" rule, which every node observing the same
    tally resolves alike. *)
Definition beats (votes : gmap ids.ID nat) (a b : ids.ID) : Prop :=
  tally votes b < tally votes a \/
  (tally votes b = tally votes a /\ (a < b)%N).

#[global] Instance beats_dec votes a b : Decision (beats votes a b).
Proof. unfold beats. apply _. Defined.

Fixpoint topVoted (votes : gmap ids.ID nat) (alts : list ids.ID)
    (best : ids.ID) : ids.ID :=
  match alts with
  | [] => best
  | a :: rest =>
      topVoted votes rest (if decide (beats votes a best) then a else best)
  end.

Definition confidenceOf (t : Tree) (a : ids.ID) : nat :=
  default 0 (confidence t !! a).

(** Modelled from the spec: [RecordPoll].  When the top-voted alternative
    reaches Alpha (and the poll is not forced to fail by [falter]) its
    confidence is incremented, a change of preference resets the other
    counters, and reaching Beta sets the finalized flag; otherwise all
    counters are reset and the preference is retained. *)
Definition RecordPoll (t : Tree) (votes : gmap ids.ID nat) (falter : bool)
    : Tree :=
  let top := topVoted votes (alternatives t) (preference t) in
  if negb falter && bool_decide (Alpha (params t) <= tally votes top) then
    let c := S (confidenceOf t top) in
    {| params := params t;
       alternatives := alternatives t;
       preference := top;
       confidence :=
         (if decide (top = preference t)
          then <[top := c]> (confidence t)
          else {[top := c]});
       finalized := finalized t || bool_decide (Beta (params t) <= c) |}
  else
    {| params := params t;
       alternatives := alternatives t;
       preference := preference t;
       confidence := ∅;
       finalized := finalized t |}.

End snowball.

(** ** Package snowman: block.go surface and snowman_block.go *)

Module snowman.

(** What a [Block] exposes: identity, parent identity, height, timestamp
    and status. *)
Record BlockData : Type := {
  ID : ids.ID;
  Parent : ids.ID;
  Height : N;
  Timestamp : Z;
  Status : choices.Status
}.

(** A value of the interface type [Block]: nil, or the address of a block
    in the block store. *)
Definition Block : Type := option nat.

(** The objects the node refers to: the blocks, owned by the VM, and the
    snowball instances, reached through the interface value [sb]. *)
Record World : Type := {
  blocks : list BlockData;
  trees : list snowball.Tree
}.

(** [type snowmanBlock struct].  [sb] is nil or the address of the snowball
    instance; [children] is nil or the map. *)
Record snowmanBlock : Type := {
  params : snowball.Parameters;
  blk : Block;
  shouldFalter : bool;
  sb : option nat;
  children : option (gmap ids.ID Block)
}.

(** A node as a composite literal with only [params] and [blk] given: the
    other fields hold Go's zero values. *)
Definition newSnowmanBlock (p : snowball.Parameters) (b : Block)
    : snowmanBlock :=
  {| params := p; blk := b; shouldFalter := false;
     sb := None; children := None |}.

(** [child.ID()] on an interface value: a nil value panics. *)
Definition blockOf (w : World) (b : Block) : result BlockData :=
  match b with
  | None => Panic
  | Some addr => deref (blocks w) addr
  end.

(** [func (n *snowmanBlock) AddChild(child Block)].  The updated node and
    world are returned.  Writing to the nil map panics. *)
Definition AddChild (n : snowmanBlock) (child : Block) (w : World)
    : result (snowmanBlock * World) :=
  c ← blockOf w child;
  let childID := ID c in
  '(n1, w1) ←
    match sb n with
    | None =>
        Ok ({| params := params n; blk := blk n;
               shouldFalter := shouldFalter n;
               sb := Some (length (trees w));
               children := Some ∅ |},
            {| blocks := blocks w;
               trees := trees w ++
                 [snowball.NewTree snowball.SnowballFactory (params n)
                    childID] |})
    | Some addr =>
        t ← deref (trees w) addr;
        Ok (n, {| blocks := blocks w;
                  trees := <[addr := snowball.Add t childID]> (trees w) |})
    end;
  match children n1 with
  | None => Panic
  | Some m =>
      Ok ({| params := params n1; blk := blk n1;
             shouldFalter := shouldFalter n1;
             sb := sb n1;
             children := Some (<[childID := child]> m) |}, w1)
  end.

(** [func (n *snowmanBlock) Accepted() bool]. *)
Definition Accepted (n : snowmanBlock) (w : World) : result (bool * World) :=
  match blk n with
  | None => Ok (true, w)
  | Some addr =>
      b ← deref (blocks w) addr;
      Ok (bool_decide (Status b = choices.Accepted), w)
  end.

(** [func (n snowmanBlock) String() string].  The renderings of [%v] for
    the types printed belong to [fmt] and to the printed types and are
    taken as given.  Go visits the children in an unspecified order; here
    they come in the order of [map_to_list]. *)
Section String.
Variable fmtParams : snowball.Parameters -> string.
Variable fmtID : ids.ID -> string.
Variable fmtStatus : choices.Status -> string.
Variable fmtHeight : N -> string.
Variable fmtTimestamp : Z -> string.
Variable fmtTree : snowball.Tree -> string.
Variable fmtBlock : BlockData -> string.

(** [%v] of a [Block] value; nil prints as [<nil>]. *)
Definition fmtBlockValue (w : World) (b : Block) : result string :=
  match b with
  | None => Ok "<nil>"%string
  | Some addr => d ← deref (blocks w) addr; Ok (fmtBlock d)
  end.

Definition String (n : snowmanBlock) (w : World)
    : result (string * World) :=
  let s0 := ("params: " +:+ fmtParams (params n))%string in
  s1 ← match blk n with
       | None => Ok s0
       | Some addr =>
           b ← deref (blocks w) addr;
           Ok (s0 +:+ " blk: ID: " +:+ fmtID (ID b)
                  +:+ " Status: " +:+ fmtStatus (Status b)
                  +:+ " Parent: " +:+ fmtID (Parent b)
                  +:+ " Height: " +:+ fmtHeight (Height b)
                  +:+ " Timestamp: " +:+ fmtTimestamp (Timestamp b))%string
       end;
  s2 ← match sb n with
       | None => Ok s1
       | Some addr =>
           t ← deref (trees w) addr;
           Ok (s1 +:+ " sb: " +:+ fmtTree t)%string
       end;
  s3 ← match children n with
       | None => Ok s2
       | Some m =>
           kvs ← mapM (fun kv : ids.ID * Block =>
                         v ← fmtBlockValue w kv.2;
                         Ok (fmtID kv.1 +:+ ": " +:+ v)%string)
                      (map_to_list m);
           Ok (s2 +:+ " children: {" +:+ String.concat ", " kvs
                  +:+ "}")%string
       end;
  Ok (s3, w).
End String.

(** What [AddChild] keeps true of a node: [sb] and [children] are nil
    together, and a non-nil [sb] is the address of a live instance. *)
Definition nodeOK (n : snowmanBlock) (w : World) : bool :=
  match sb n, children n with
  | None, None => true
  | Some addr, Some _ => bool_decide (addr < length (trees w))
  | _, _ => false
  end.

End snowman.

(** ** The consensus engine

    Modelled from the spec: the engine of section 4.2 ([Add], [RecordPoll],
    [Preferred], [LastAccepted]) is not among the sources; only the node type
    above is.  The engine owns the tree of nodes, kept by block identity; the
    callbacks [OnAccept] and [OnReject] are recorded in the order they are
    made and set the status of the block. *)

Module topological.
Import snowman.

Inductive Error : Type :=
| InvalidParent
| DuplicateBlock.

Inductive Event : Type :=
| OnAccept (id : ids.ID)
| OnReject (id : ids.ID).

Record Engine : Type := {
  params : snowball.Parameters;
  world : World;
  nodes : gmap ids.ID snowmanBlock;
  root : ids.ID;
  events : list Event
}.

(** Modelled from the spec: the tree starts as the virtual node of the
    accepted frontier, whose block is nil. *)
Definition Initialize (p : snowball.Parameters) (w : World)
    (lastAccepted : ids.ID) : Engine :=
  {| params := p; world := w;
     nodes := {[lastAccepted := newSnowmanBlock p None]};
     root := lastAccepted; events := [] |}.

(** Modelled from the spec: [Add(block)] "fails with InvalidParent if the
    block's parent is neither the accepted frontier nor a currently tracked
    node", "with DuplicateBlock if the identity already exists in the tree",
    and otherwise "creates a new leaf node, and registers it as a child of
    its parent node", which is [AddChild] of the sources. *)
Definition Add (e : Engine) (b : Block) : result (option Error * Engine) :=
  d ← blockOf (world e) b;
  match nodes e !! Parent d with
  | None => Ok (Some InvalidParent, e)
  | Some parent =>
      if decide (is_Some (nodes e !! ID d)) then Ok (Some DuplicateBlock, e)
      else
        '(parent', w') ← AddChild parent b (world e);
        Ok (None,
            {| params := params e; world := w';
               nodes := <[ID d := newSnowmanBlock (params e) b]>
                          (<[Parent d := parent']> (nodes e));
               root := root e; events := events e |})
  end.

(** The parent of a tracked node, read from its block. *)
Definition parentOf (e : Engine) (id : ids.ID) : option ids.ID :=
  n ← nodes e !! id;
  addr ← blk n;
  d ← blocks (world e) !! addr;
  Some (Parent d).

(** The tracked ancestors of a node, nearest first, up to the root; the tree
    has no more levels than nodes, which bounds the walk. *)
Fixpoint lineage (fuel : nat) (e : Engine) (id : ids.ID) : list ids.ID :=
  match fuel with
  | 0 => []
  | S fuel' =>
      if decide (id = root e) then []
      else match parentOf e id with
           | Some p => p :: lineage fuel' e p
           | None => []
           end
  end.

(** The votes a round gives, per node, to each of its child branches. *)
Definition Counts : Type := gmap ids.ID (gmap ids.ID nat).

Definition branchVotes (counts : Counts) (node : ids.ID) : gmap ids.ID nat :=
  default ∅ (counts !! node).

Definition bump (counts : Counts) (node child : ids.ID) (weight : nat)
    : Counts :=
  <[node := <[child := weight + snowball.tally (branchVotes counts node) child]>
              (branchVotes counts node)]> counts.

(** Modelled from the spec: "For every node on the path from the tree root
    to each voted block, accumulate the vote weight into that ancestor's
    count for the corresponding child branch"; an entry for an unknown block
    "is simply dropped". *)
Definition routeVote (e : Engine) (id : ids.ID) (weight : nat)
    (counts : Counts) : Counts :=
  match nodes e !! id with
  | None => counts
  | Some _ =>
      let up := lineage (size (nodes e)) e id in
      foldr (fun edge acc => bump acc edge.1 edge.2 weight) counts
            (zip up (id :: up))
  end.

Definition countVotes (e : Engine) (voteBag : gmap ids.ID nat) : Counts :=
  map_fold (routeVote e) ∅ voteBag.

Definition totalVotes (counts : Counts) (node : ids.ID) : nat :=
  map_fold (fun _ n acc => n + acc) 0 (branchVotes counts node).

(** Modelled from the spec: "For every tracked node that received strictly
    fewer than Alpha total votes across its children in this round, mark it
    (and transitively every node in its subtree) shouldFalter". *)
Definition falters (e : Engine) (counts : Counts) (id : ids.ID) : bool :=
  existsb (fun a => bool_decide (totalVotes counts a < snowball.Alpha (params e)))
          (id :: lineage (size (nodes e)) e id).

Definition setShouldFalter (n : snowmanBlock) (f : bool) : snowmanBlock :=
  {| snowman.params := snowman.params n; blk := blk n; shouldFalter := f;
     sb := sb n; children := children n |}.

Definition markFalter (e : Engine) (counts : Counts) : Engine :=
  {| params := params e; world := world e;
     nodes := map_imap (fun id n => Some (setShouldFalter n (falters e counts id)))
                       (nodes e);
     root := root e; events := events e |}.

(** The accept and reject callbacks set the status of the block. *)
Definition setStatus (w : World) (b : Block) (s : choices.Status) : World :=
  match b with
  | None => w
  | Some addr =>
      {| blocks := alter (fun d => {| ID := ID d; Parent := Parent d;
                                      Height := Height d;
                                      Timestamp := Timestamp d;
                                      Status := s |}) addr (blocks w);
         trees := trees w |}
  end.

(** Whether [id] is [top] or below it. *)
Definition descends (e : Engine) (top id : ids.ID) : bool :=
  bool_decide (id = top) ||
  bool_decide (top ∈ lineage (size (nodes e)) e id).

(** Modelled from the spec: "recursively reject every sibling subtree (mark
    every block in it Rejected, discard the nodes)". *)
Definition rejectOne (e : Engine) (id : ids.ID) (n : snowmanBlock) : Engine :=
  {| params := params e;
     world := setStatus (world e) (blk n) choices.Rejected;
     nodes := delete id (nodes e);
     root := root e;
     events := events e ++ [OnReject id] |}.

Definition inSiblingSubtree (e : Engine) (siblings : list ids.ID)
    (id : ids.ID) : bool :=
  existsb (fun s => descends e s id) siblings.

Definition rejectSiblings (e : Engine) (siblings : list ids.ID) : Engine :=
  foldl (fun acc kv => rejectOne acc kv.1 kv.2) e
        (filter (fun kv => inSiblingSubtree e siblings kv.1 = true)
                (map_to_list (nodes e))).

(** Modelled from the spec: "accept that child, recursively reject every
    sibling subtree, and advance the tree root to the accepted child,
    discarding everything above it". *)
Definition acceptChild (e : Engine) (kids : gmap ids.ID Block)
    (pref : ids.ID) (child : Block) : Engine :=
  let e1 :=
    {| params := params e;
       world := setStatus (world e) child choices.Accepted;
       nodes := nodes e; root := root e;
       events := events e ++ [OnAccept pref] |} in
  let siblings := filter (fun s => s <> pref) (map_to_list kids).*1 in
  let e2 := rejectSiblings e1 siblings in
  {| params := params e2; world := world e2;
     nodes := delete (root e) (nodes e2);
     root := pref; events := events e2 |}.

Definition setTree (e : Engine) (addr : nat) (t : snowball.Tree) : Engine :=
  {| params := params e;
     world := {| blocks := blocks (world e);
                 trees := <[addr := t]> (trees (world e)) |};
     nodes := nodes e; root := root e; events := events e |}.

(** Modelled from the spec: the "single pass from root toward leaves".  The
    primitive of the root records the poll; if it becomes finalized its
    preferred child is accepted and the pass goes on from that child, the new
    root; if not, the pass stops and what is below stays pending.  Every
    accept discards a node, which bounds the pass. *)
Fixpoint cascade (fuel : nat) (counts : Counts) (e : Engine) : Engine :=
  match fuel with
  | 0 => e
  | S fuel' =>
      match nodes e !! root e with
      | None => e
      | Some n =>
          match sb n with
          | None => e
          | Some addr =>
              match trees (world e) !! addr with
              | None => e
              | Some t =>
                  let t' := snowball.RecordPoll t (branchVotes counts (root e))
                              (shouldFalter n) in
                  let e1 := setTree e addr t' in
                  if snowball.Finalized t' then
                    match children n with
                    | None => e1
                    | Some kids =>
                        match kids !! snowball.Preference t' with
                        | None => e1
                        | Some child =>
                            cascade fuel' counts
                              (acceptChild e1 kids (snowball.Preference t') child)
                        end
                    end
                  else e1
              end
          end
      end
  end.

(** Modelled from the spec: [RecordPoll(voteBag)]. *)
Definition RecordPoll (e : Engine) (voteBag : gmap ids.ID nat) : Engine :=
  let counts := countVotes e voteBag in
  cascade (size (nodes e)) counts (markFalter e counts).

(** Modelled from the spec: [LastAccepted()] is "the current tree root's
    block identity". *)
Definition LastAccepted (e : Engine) : ids.ID := root e.

(** A call on the engine, and a run of calls from a state. *)
Inductive Call : Type :=
| CallAdd (b : Block)
| CallRecordPoll (voteBag : gmap ids.ID nat).

Definition step (e : Engine) (c : Call) : result Engine :=
  match c with
  | CallAdd b => '(_, e') ← Add e b; Ok e'
  | CallRecordPoll voteBag => Ok (RecordPoll e voteBag)
  end.

Fixpoint run (e : Engine) (calls : list Call) : result Engine :=
  match calls with
  | [] => Ok e
  | c :: rest => e' ← step e c; run e' rest
  end.

(** The identities reported through [OnAccept], in order. *)
Definition accepted (evs : list Event) : list ids.ID :=
  omap (fun ev => match ev with OnAccept id => Some id | OnReject _ => None end)
       evs.

(** What of a block never changes: identity, parent identity and height. *)
Definition linkage (w : World) : list (ids.ID * ids.ID * N) :=
  (fun d => (ID d, Parent d, Height d)) <$> blocks w.

(** Parent linkage of the blocks in the store. *)
Definition isParent (w : World) (child parent : ids.ID) : Prop :=
  exists addr h, linkage w !! addr = Some (child, parent, h).

(** [a] is [d] or above it. *)
Definition isAncestor (w : World) (a d : ids.ID) : Prop :=
  rtc (isParent w) d a.

Definition isSibling (w : World) (s a : ids.ID) : Prop :=
  s <> a /\ exists p, isParent w s p /\ isParent w a p.

(** Well-formed stores: "a unique identity" per block, and "a monotonically
    increasing height relative to parent". *)
Definition uniqueIDs (w : World) : bool :=
  bool_decide (NoDup (ID <$> blocks w)).

Definition heightsIncrease (w : World) : bool :=
  forallb (fun d1 =>
    forallb (fun d2 =>
      if decide (Parent d1 = ID d2)
      then bool_decide (Height d2 < Height d1)%N else true)
      (blocks w))
    (blocks w).

End topological.

(** ** Package network: gossip.go *)

Module network.

(** [const bloomChurnMultiplier = 3] *)
Definition bloomChurnMultiplier : Z := 3.

(** Go's [int] on a 64-bit platform: results wrap around. *)
Definition wrapInt (z : Z) : Z :=
  ((z + 2 ^ 63) mod 2 ^ 64 - 2 ^ 63)%Z.

(** The interface [mempool.Mempool], as far as gossip.go calls it.  [M] is
    the state of the implementation; [Txs] lists the transactions in the
    order [Iterate] visits them. *)
Class Mempool (Tx error M : Type) : Type := {
  Get : M -> ids.ID -> option Tx;
  GetDropReason : M -> ids.ID -> option error;
  MarkDropped : M -> ids.ID -> error -> M;
  MempoolAdd : M -> Tx -> option error * M;
  Len : M -> Z;
  Txs : M -> list Tx;
  RequestBuildBlock : M -> M
}.

(** The interface [TxVerifier]. *)
Class TxVerifier (Tx error V : Type) : Type := {
  VerifyTx : V -> Tx -> option error
}.

(** [*gossip.BloomFilter] with [gossip.ResetBloomFilterIfNeeded], which
    answers whether it reset the filter, an error, and leaves the filter it
    was given in a new state. *)
Class BloomFilter (Tx error B : Type) : Type := {
  BloomAdd : B -> Tx -> B;
  ResetBloomFilterIfNeeded : B -> Z -> bool * option error * B
}.

Section gossip.
Context {Tx error M V B : Type}.
Context `{!Mempool Tx error M, !TxVerifier Tx error V,
          !BloomFilter Tx error B}.

(** [tx.ID()] *)
Variable txID : Tx -> ids.ID.

(** [fmt.Errorf("attempted to issue %w: %s ", mempool.ErrDuplicateTx, txID)] *)
Variable errDuplicateTx : ids.ID -> error.

(** [type gossipMempool struct]; [log] collects the messages logged, the
    parser and the lock carry no state of their own here. *)
Record gossipMempool : Type := {
  mempool : M;
  log : list string;
  txVerifier : V;
  bloom : B
}.

(** [Mempool.Iterate(f)]: [f] is called on the transactions in order
    until it answers false. *)
Fixpoint Iterate {S : Type} (txs : list Tx) (f : Tx -> S -> bool * S)
    (s : S) : S :=
  match txs with
  | [] => s
  | tx :: rest =>
      let '(continue, s1) := f tx s in
      if continue then Iterate rest f s1 else s1
  end.

(** [func (g *gossipMempool) Has(txID ids.ID) bool] *)
Definition Has (g : gossipMempool) (id : ids.ID) : bool :=
  match Get (mempool g) id with
  | Some _ => true
  | None => false
  end.

(** [func (g *gossipMempool) AddWithoutVerification(tx *txs.Tx) error] *)
Definition AddWithoutVerification (g : gossipMempool) (tx : Tx)
    : option error * gossipMempool :=
  match MempoolAdd (mempool g) tx with
  | (Some err, m1) =>
      (Some err,
       {| mempool := MarkDropped m1 (txID tx) err; log := log g;
          txVerifier := txVerifier g; bloom := bloom g |})
  | (None, m1) =>
      let b1 := BloomAdd (bloom g) tx in
      let '(reset, err, b2) :=
        ResetBloomFilterIfNeeded b1
          (wrapInt (Len m1 * bloomChurnMultiplier)) in
      match err with
      | Some e =>
          (Some e,
           {| mempool := m1; log := log g;
              txVerifier := txVerifier g; bloom := b2 |})
      | None =>
          let '(l3, b3) :=
            if reset
            then (log g ++ ["resetting bloom filter"%string],
                  Iterate (Txs m1)
                    (fun tx b => (true, BloomAdd b tx)) b2)
            else (log g, b2) in
          (None,
           {| mempool := RequestBuildBlock m1; log := l3;
              txVerifier := txVerifier g; bloom := b3 |})
      end
  end.

(** One turn of the loop of [Add]: the error stored at the transaction's
    index and the state the turn leaves. *)
Definition addOne (g : gossipMempool) (tx : Tx)
    : option error * gossipMempool :=
  let id := txID tx in
  match Get (mempool g) id with
  | Some _ => (Some (errDuplicateTx id), g)
  | None =>
      match GetDropReason (mempool g) id with
      | Some e => (Some e, g)
      | None =>
          match VerifyTx (txVerifier g) tx with
          | Some e =>
              (Some e,
               {| mempool := MarkDropped (mempool g) id e; log := log g;
                  txVerifier := txVerifier g; bloom := bloom g |})
          | None => AddWithoutVerification g tx
          end
      end
  end.

(** [func (g *gossipMempool) Add(txs ...*txs.Tx) []error] *)
Fixpoint Add (g : gossipMempool) (txs : list Tx)
    : list (option error) * gossipMempool :=
  match txs with
  | [] => ([], g)
  | tx :: rest =>
      let '(e, g1) := addOne g tx in
      let '(errs, g2) := Add g1 rest in
      (e :: errs, g2)
  end.

End gossip.

(** What the invariant on the bloom filter needs of the collaborators.
    [Added b tx] reads: [tx] has been added to the filter [b] since it was
    created or last reset. *)
Class GossipLaws (Tx error M B : Type) `{!Mempool Tx error M}
    `{!BloomFilter Tx error B} (Added : B -> Tx -> Prop) : Prop := {
  (** a successful [Add] brings no transaction but the one added *)
  MempoolAdd_Txs : forall m tx m' t,
    MempoolAdd m tx = (None, m') -> t ∈ Txs m' -> t = tx \/ t ∈ Txs m;
  (** asking for a block to be built brings no transaction *)
  RequestBuildBlock_Txs : forall m t,
    t ∈ Txs (RequestBuildBlock m) -> t ∈ Txs m;
  Added_BloomAdd : forall b tx, Added (BloomAdd b tx) tx;
  Added_BloomAdd_mono : forall b tx t, Added b t -> Added (BloomAdd b tx) t;
  (** a filter that was not reset has kept what was added *)
  Added_not_reset : forall b target b' t,
    ResetBloomFilterIfNeeded b target = (false, None, b') ->
    Added b t -> Added b' t
}.

(** ** A small mempool, verifier and filter

    An implementation of the three interfaces to run [Add] on: a
    transaction is its identity, an error is its message. *)
Module sample.

Record pool : Type := {
  unissued : list N;
  dropped : gmap N string;
  capacity : nat
}.

Definition poolAdd (m : pool) (tx : N) : option string * pool :=
  if decide (tx ∈ unissued m) then (Some "duplicate tx"%string, m)
  else if decide (capacity m <= length (unissued m))
  then (Some "mempool is full"%string, m)
  else (None, {| unissued := unissued m ++ [tx];
                 dropped := delete tx (dropped m);
                 capacity := capacity m |}).

Definition poolMarkDropped (m : pool) (id : N) (e : string) : pool :=
  if decide (id ∈ unissued m) then m
  else {| unissued := unissued m;
          dropped := <[id := e]> (dropped m);
          capacity := capacity m |}.

#[global] Instance pool_Mempool : Mempool N string pool := {|
  Get m id := if decide (id ∈ unissued m) then Some id else None;
  GetDropReason m id := dropped m !! id;
  MarkDropped := poolMarkDropped;
  MempoolAdd := poolAdd;
  Len m := Z.of_nat (length (unissued m));
  Txs := unissued;
  RequestBuildBlock m := m
|}.

(** The verifier is the set of transactions it rejects. *)
#[global] Instance list_TxVerifier : TxVerifier N string (list N) := {|
  VerifyTx bad tx :=
    if decide (tx ∈ bad) then Some "invalid tx"%string else None
|}.

Record filter : Type := {
  entries : list N;
  maxCount : nat
}.

#[global] Instance filter_BloomFilter : BloomFilter N string filter := {|
  BloomAdd b tx := {| entries := tx :: entries b; maxCount := maxCount b |};
  ResetBloomFilterIfNeeded b target :=
    if decide (length (entries b) <= maxCount b) then (false, None, b)
    else (true, None, {| entries := []; maxCount := Z.to_nat target |})
|}.

Definition filterAdded (b : filter) (tx : N) : Prop := tx ∈ entries b.

Definition duplicateError (id : ids.ID) : string := "attempted to issue duplicate tx".

Definition txID (tx : N) : ids.ID := tx.

End sample.

End network.

(** * Properties of the block-tree node *)

Module SnowmanBlock.
Import snowman.

Implicit Types (n : snowmanBlock) (w : World) (child : Block).

(** ** Sample data *)

Definition sampleParams : snowball.Parameters :=
  {| snowball.K := 20; snowball.Alpha := 15; snowball.Beta := 3 |}.

Definition blockA : BlockData :=
  {| ID := 1%N; Parent := 0%N; Height := 1%N; Timestamp := 100%Z;
     Status := choices.Processing |}.

Definition blockB : BlockData :=
  {| ID := 2%N; Parent := 0%N; Height := 1%N; Timestamp := 101%Z;
     Status := choices.Processing |}.

Definition blockC : BlockData :=
  {| ID := 3%N; Parent := 1%N; Height := 2%N; Timestamp := 102%Z;
     Status := choices.Accepted |}.

Definition sampleWorld : World :=
  {| blocks := [blockA; blockB; blockC]; trees := [] |}.

Definition genesis : snowmanBlock := newSnowmanBlock sampleParams None.

(** ** The two paths of [AddChild] *)

Lemma AddChild_nil_sb n child w c :
  sb n = None ->
  blockOf w child = Ok c ->
  AddChild n child w =
    Ok ({| params := params n; blk := blk n;
           shouldFalter := shouldFalter n;
           sb := Some (length (trees w));
           children := Some {[ID c := child]} |},
        {| blocks := blocks w;
           trees := trees w ++
             [snowball.NewTree snowball.SnowballFactory (params n) (ID c)] |}).
Proof.
  intros Hsb Hc. unfold AddChild. rewrite Hc, Hsb. reflexivity.
Qed.

Lemma AddChild_some_sb n child w c addr t m :
  sb n = Some addr ->
  trees w !! addr = Some t ->
  children n = Some m ->
  blockOf w child = Ok c ->
  AddChild n child w =
    Ok ({| params := params n; blk := blk n;
           shouldFalter := shouldFalter n;
           sb := Some addr;
           children := Some (<[ID c := child]> m) |},
        {| blocks := blocks w;
           trees := <[addr := snowball.Add t (ID c)]> (trees w) |}).
Proof.
  intros Hsb Ht Hm Hc. unfold AddChild, deref.
  rewrite Hc, Hsb. cbn. rewrite Ht. cbn. rewrite Hm, Hsb. reflexivity.
Qed.

(** A call that returns went through one of the two paths. *)
Lemma AddChild_Ok_inv n child w n' w' :
  AddChild n child w = Ok (n', w') ->
  exists c, blockOf w child = Ok c /\
    ((sb n = None /\
      n' = {| params := params n; blk := blk n;
              shouldFalter := shouldFalter n;
              sb := Some (length (trees w));
              children := Some {[ID c := child]} |} /\
      w' = {| blocks := blocks w;
              trees := trees w ++
                [snowball.NewTree snowball.SnowballFactory (params n)
                   (ID c)] |})
     \/
     (exists addr t m,
        sb n = Some addr /\ trees w !! addr = Some t /\
        children n = Some m /\
        n' = {| params := params n; blk := blk n;
                shouldFalter := shouldFalter n;
                sb := Some addr;
                children := Some (<[ID c := child]> m) |} /\
        w' = {| blocks := blocks w;
                trees := <[addr := snowball.Add t (ID c)]> (trees w) |})).
Proof.
  unfold AddChild. intros H.
  destruct (blockOf w child) as [c|] eqn:Hc; [|discriminate].
  exists c. split; [reflexivity|]. cbn in H.
  destruct (sb n) as [addr|] eqn:Hsb.
  - right. unfold deref in H.
    destruct (trees w !! addr) as [t|] eqn:Ht; [|discriminate].
    cbn in H. destruct (children n) as [m|] eqn:Hm; [|discriminate].
    rewrite Hsb in H. injection H as <- <-.
    exists addr, t, m. repeat split; (reflexivity || assumption).
  - left. cbn in H. injection H as <- <-. repeat split; reflexivity.
Qed.

Lemma nodeOK_Some_inv n w addr :
  nodeOK n w = true -> sb n = Some addr ->
  exists t m, trees w !! addr = Some t /\ children n = Some m.
Proof.
  unfold nodeOK. intros H Hsb. rewrite Hsb in H.
  destruct (children n) as [m|]; [|discriminate].
  apply bool_decide_eq_true_1 in H.
  destruct (lookup_lt_is_Some_2 (trees w) addr H) as [t Ht].
  exists t, m. split; [exact Ht | reflexivity].
Qed.

Lemma nodeOK_None_inv n w :
  nodeOK n w = true -> sb n = None -> children n = None.
Proof.
  unfold nodeOK. intros H Hsb. rewrite Hsb in H.
  destruct (children n); [discriminate | reflexivity].
Qed.

(** On a node in good shape, [AddChild] with a live block returns, and the
    node it leaves is in good shape again. *)
Lemma AddChild_total n child w c :
  nodeOK n w = true ->
  blockOf w child = Ok c ->
  exists n' w', AddChild n child w = Ok (n', w') /\ nodeOK n' w' = true.
Proof.
  intros Hok Hc. destruct (sb n) as [addr|] eqn:Hsb.
  - destruct (nodeOK_Some_inv _ _ _ Hok Hsb) as (t & m & Ht & Hm).
    eexists _, _. split; [exact (AddChild_some_sb _ _ _ _ _ _ _ Hsb Ht Hm Hc)|].
    unfold nodeOK. cbn. apply bool_decide_eq_true_2.
    rewrite length_insert. exact (lookup_lt_Some _ _ _ Ht).
  - eexists _, _. split; [exact (AddChild_nil_sb _ _ _ _ Hsb Hc)|].
    unfold nodeOK. cbn. apply bool_decide_eq_true_2.
    rewrite length_app. cbn. lia.
Qed.

Lemma blockOf_sampleA : blockOf sampleWorld (Some 0) = Ok blockA.
Proof. reflexivity. Qed.

Lemma blockOf_sampleB : blockOf sampleWorld (Some 1) = Ok blockB.
Proof. reflexivity. Qed.

(** ** When the snowball instance is created *)

(** C1, as stated, fails: on a node without children, [AddChild] with the
    first child already leaves [sb] non-nil. *)
Lemma sb_nil_after_first_child_counterexample :
  exists n1 w1,
    AddChild genesis (Some 0) sampleWorld = Ok (n1, w1) /\
    sb n1 = Some 0 /\ sb n1 <> None.
Proof.
  eexists _, _. split; [reflexivity|]. cbn. split; [reflexivity|discriminate].
Qed.

(** C1, amended: [sb] is nil until the first child is issued under the
    node.  [AddChild] with the first child creates the snowball instance, at
    an address that was free, initialised with that child's identity;
    [AddChild] with a second child keeps that address and creates no
    instance. *)
Theorem sb_created_by_first_child p b w c1 c2 d1 d2 :
  blockOf w c1 = Ok d1 ->
  blockOf w c2 = Ok d2 ->
  sb (newSnowmanBlock p b) = None /\
  exists n1 w1 n2 w2 addr,
    AddChild (newSnowmanBlock p b) c1 w = Ok (n1, w1) /\
    sb n1 = Some addr /\
    trees w !! addr = None /\
    trees w1 !! addr =
      Some (snowball.NewTree snowball.SnowballFactory p (ID d1)) /\
    AddChild n1 c2 w1 = Ok (n2, w2) /\
    sb n2 = Some addr /\
    length (trees w2) = length (trees w1).
Proof.
  intros H1 H2. split; [reflexivity|].
  pose proof (AddChild_nil_sb (newSnowmanBlock p b) c1 w d1 eq_refl H1) as E1.
  cbn in E1.
  set (t1 := snowball.NewTree snowball.SnowballFactory p (ID d1)) in *.
  set (w1 := {| blocks := blocks w; trees := trees w ++ [t1] |}) in *.
  assert (Ht : trees w1 !! length (trees w) = Some t1).
  { cbn. rewrite lookup_app_r by lia. rewrite Nat.sub_diag. reflexivity. }
  assert (H2' : blockOf w1 c2 = Ok d2) by exact H2.
  eexists _, w1, _, _, (length (trees w)).
  split; [exact E1|]. split; [reflexivity|].
  split; [apply lookup_ge_None_2; lia|].
  split; [exact Ht|].
  split; [eapply AddChild_some_sb; [reflexivity | exact Ht | reflexivity | exact H2']|].
  split; [reflexivity|]. cbn. apply length_insert.
Qed.

Lemma sb_created_by_first_child_witness :
  blockOf sampleWorld (Some 0) = Ok blockA /\
  blockOf sampleWorld (Some 1) = Ok blockB /\
  sb genesis = None /\
  exists n1 w1 n2 w2 addr,
    AddChild genesis (Some 0) sampleWorld = Ok (n1, w1) /\
    sb n1 = Some addr /\
    trees sampleWorld !! addr = None /\
    trees w1 !! addr =
      Some (snowball.NewTree snowball.SnowballFactory sampleParams 1%N) /\
    AddChild n1 (Some 1) w1 = Ok (n2, w2) /\
    sb n2 = Some addr /\
    length (trees w2) = length (trees w1).
Proof.
  split; [reflexivity|]. split; [reflexivity|].
  apply (sb_created_by_first_child sampleParams None sampleWorld
           (Some 0) (Some 1) blockA blockB); reflexivity.
Defined.

(** ** What [AddChild] changes in a node *)

(** C2, as stated, fails: adding a child under an existing node changes
    the node. *)
Lemma AddChild_changes_node_counterexample :
  exists n1 w1,
    AddChild genesis (Some 0) sampleWorld = Ok (n1, w1) /\
    sb n1 <> sb genesis /\ children n1 <> children genesis.
Proof.
  eexists _, _. split; [reflexivity|]. cbn. split; discriminate.
Qed.

(** ** The first child is the preference *)

Lemma beats_irrefl votes a : ~ snowball.beats votes a a.
Proof. unfold snowball.beats. lia. Qed.

(** With one alternative known, a poll cannot move the preference. *)
Lemma RecordPoll_single_alternative p f choice votes falter :
  snowball.Preference
    (snowball.RecordPoll (snowball.NewTree f p choice) votes falter) = choice.
Proof.
  unfold snowball.RecordPoll, snowball.Preference. cbn.
  rewrite decide_False by apply beats_irrefl.
  destruct (negb falter && _); reflexivity.
Qed.

(** C3: when [AddChild] is called on a node whose [sb] is nil, the snowball
    instance is created with the child's identity as its initial choice;
    that identity is the instance's only alternative and its preference, and
    stays the preference whatever a poll says while it is the only
    alternative. *)
Theorem first_child_is_initial_preference n child w c :
  sb n = None ->
  blockOf w child = Ok c ->
  exists n' w' addr t,
    AddChild n child w = Ok (n', w') /\
    sb n' = Some addr /\
    trees w' !! addr = Some t /\
    t = snowball.NewTree snowball.SnowballFactory (params n) (ID c) /\
    snowball.alternatives t = [ID c] /\
    snowball.Preference t = ID c /\
    forall votes falter,
      snowball.Preference (snowball.RecordPoll t votes falter) = ID c.
Proof.
  intros Hsb Hc.
  eexists _, _, (length (trees w)), _.
  split; [exact (AddChild_nil_sb _ _ _ _ Hsb Hc)|].
  split; [reflexivity|]. cbn.
  split; [rewrite lookup_app_r by lia; rewrite Nat.sub_diag; reflexivity|].
  split; [reflexivity|]. split; [reflexivity|]. split; [reflexivity|].
  intros votes falter. apply RecordPoll_single_alternative.
Qed.

Lemma first_child_is_initial_preference_witness :
  sb genesis = None /\
  blockOf sampleWorld (Some 1) = Ok blockB /\
  exists n' w' addr t,
    AddChild genesis (Some 1) sampleWorld = Ok (n', w') /\
    sb n' = Some addr /\
    trees w' !! addr = Some t /\
    t = snowball.NewTree snowball.SnowballFactory (params genesis) 2%N /\
    snowball.alternatives t = [2%N] /\
    snowball.Preference t = 2%N /\
    forall votes falter,
      snowball.Preference (snowball.RecordPoll t votes falter) = 2%N.
Proof.
  split; [reflexivity|]. split; [reflexivity|].
  apply (first_child_is_initial_preference genesis (Some 1) sampleWorld
           blockB); reflexivity.
Defined.

(** ** Later children extend the same instance *)

(** The world after the first child of the genesis node. *)
Definition nodeWithA : snowmanBlock :=
  {| params := sampleParams; blk := None; shouldFalter := false;
     sb := Some 0; children := Some {[1%N := Some 0]} |}.

Definition worldWithA : World :=
  {| blocks := blocks sampleWorld;
     trees := [snowball.NewTree snowball.SnowballFactory sampleParams 1%N] |}.

Lemma AddChild_genesis_A :
  AddChild genesis (Some 0) sampleWorld = Ok (nodeWithA, worldWithA).
Proof. reflexivity. Qed.

(** C4: on a node whose [sb] is non-nil, [AddChild] returns with [sb] the
    same address; the instance at that address has had the child's identity
    registered with [Add], every other instance is as before, and no
    instance has been created. *)
Theorem AddChild_extends_same_instance n child w c addr :
  nodeOK n w = true ->
  sb n = Some addr ->
  blockOf w child = Ok c ->
  exists n' w' t,
    AddChild n child w = Ok (n', w') /\
    sb n' = Some addr /\
    trees w !! addr = Some t /\
    trees w' !! addr = Some (snowball.Add t (ID c)) /\
    (forall other, other <> addr -> trees w' !! other = trees w !! other) /\
    length (trees w') = length (trees w).
Proof.
  intros Hok Hsb Hc.
  destruct (nodeOK_Some_inv _ _ _ Hok Hsb) as (t & m & Ht & Hm).
  eexists _, _, t.
  split; [exact (AddChild_some_sb _ _ _ _ _ _ _ Hsb Ht Hm Hc)|]. cbn.
  split; [reflexivity|]. split; [exact Ht|].
  split; [apply list_lookup_insert_eq; exact (lookup_lt_Some _ _ _ Ht)|].
  split; [|apply length_insert].
  intros other Hne. apply list_lookup_insert_ne. congruence.
Qed.

Lemma AddChild_extends_same_instance_witness :
  nodeOK nodeWithA worldWithA = true /\
  sb nodeWithA = Some 0 /\
  blockOf worldWithA (Some 1) = Ok blockB /\
  exists n' w' t,
    AddChild nodeWithA (Some 1) worldWithA = Ok (n', w') /\
    sb n' = Some 0 /\
    trees worldWithA !! 0 = Some t /\
    trees w' !! 0 = Some (snowball.Add t 2%N) /\
    (forall other, other <> 0 -> trees w' !! other = trees worldWithA !! other) /\
    length (trees w') = length (trees worldWithA).
Proof.
  split; [reflexivity|]. split; [reflexivity|]. split; [reflexivity|].
  apply (AddChild_extends_same_instance nodeWithA (Some 1) worldWithA
           blockB 0); reflexivity.
Defined.

(** ** The children map *)

(** C5: a new node has a nil [children] map (and is in good shape); on a
    node in good shape every [AddChild] with a live block returns, leaves
    the node in good shape, and leaves a non-nil map that sends the child's
    identity to the child. *)
Theorem children_maps_added_child :
  (forall p b w,
     children (newSnowmanBlock p b) = None /\
     nodeOK (newSnowmanBlock p b) w = true) /\
  (forall n child w c,
     nodeOK n w = true ->
     blockOf w child = Ok c ->
     exists n' w' m,
       AddChild n child w = Ok (n', w') /\
       nodeOK n' w' = true /\
       children n' = Some m /\
       m !! ID c = Some child).
Proof.
  split; [intros p b w; split; reflexivity|].
  intros n child w c Hok Hc.
  destruct (AddChild_total _ _ _ _ Hok Hc) as (n' & w' & E & Hok').
  pose proof (AddChild_Ok_inv _ _ _ _ _ E) as (c' & Hc' & H).
  assert (c' = c) as -> by congruence.
  destruct H as [(_ & Hn & _) | (addr & t & m & _ & _ & _ & Hn & _)].
  - exists n', w', {[ID c := child]}.
    split; [exact E|]. split; [exact Hok'|]. rewrite Hn. cbn.
    split; [reflexivity | apply lookup_singleton_eq].
  - exists n', w', (<[ID c := child]> m).
    split; [exact E|]. split; [exact Hok'|]. rewrite Hn. cbn.
    split; [reflexivity | apply lookup_insert_eq].
Qed.

Lemma children_maps_added_child_witness :
  nodeOK nodeWithA worldWithA = true /\
  blockOf worldWithA (Some 1) = Ok blockB /\
  exists n' w' m,
    AddChild nodeWithA (Some 1) worldWithA = Ok (n', w') /\
    nodeOK n' w' = true /\
    children n' = Some m /\
    m !! 2%N = Some (Some 1).
Proof.
  split; [reflexivity|]. split; [reflexivity|].
  apply (proj2 children_maps_added_child nodeWithA (Some 1) worldWithA
           blockB); reflexivity.
Defined.

(** ** [Accepted] *)

(** C6: a node whose block is nil reports accepted; a node with a block
    reports accepted exactly when the block's status is [Accepted]. *)
Theorem Accepted_genesis_or_status :
  (forall n w, blk n = None -> Accepted n w = Ok (true, w)) /\
  (forall n w addr b,
     blk n = Some addr ->
     blocks w !! addr = Some b ->
     exists r, Accepted n w = Ok (r, w) /\
               (r = true <-> Status b = choices.Accepted)).
Proof.
  split.
  - intros n w H. unfold Accepted. rewrite H. reflexivity.
  - intros n w addr b H Hb. unfold Accepted, deref. rewrite H, Hb. cbn.
    eexists. split; [reflexivity|]. apply bool_decide_eq_true.
Qed.

Definition nodeOfC : snowmanBlock := newSnowmanBlock sampleParams (Some 2).
Definition nodeOfA : snowmanBlock := newSnowmanBlock sampleParams (Some 0).

Lemma Accepted_genesis_or_status_witness :
  (blk genesis = None /\ Accepted genesis sampleWorld = Ok (true, sampleWorld)) /\
  (blk nodeOfC = Some 2 /\ blocks sampleWorld !! 2 = Some blockC /\
   exists r, Accepted nodeOfC sampleWorld = Ok (r, sampleWorld) /\
             (r = true <-> Status blockC = choices.Accepted)) /\
  (blk nodeOfA = Some 0 /\ blocks sampleWorld !! 0 = Some blockA /\
   exists r, Accepted nodeOfA sampleWorld = Ok (r, sampleWorld) /\
             (r = true <-> Status blockA = choices.Accepted)).
Proof.
  split; [split; [reflexivity|]|split].
  - apply (proj1 Accepted_genesis_or_status genesis sampleWorld). reflexivity.
  - split; [reflexivity|]. split; [reflexivity|].
    apply (proj2 Accepted_genesis_or_status nodeOfC sampleWorld 2 blockC);
      reflexivity.
  - split; [reflexivity|]. split; [reflexivity|].
    apply (proj2 Accepted_genesis_or_status nodeOfA sampleWorld 0 blockA);
      reflexivity.
Defined.

(** ** The operations of a node read blocks and never write them *)

Section Frame.
Variable fmtParams : snowball.Parameters -> string.
Variable fmtID : ids.ID -> string.
Variable fmtStatus : choices.Status -> string.
Variable fmtHeight : N -> string.
Variable fmtTimestamp : Z -> string.
Variable fmtTree : snowball.Tree -> string.
Variable fmtBlock : BlockData -> string.

Let String' :=
  String fmtParams fmtID fmtStatus fmtHeight fmtTimestamp fmtTree fmtBlock.

Lemma String_keeps_world n w s w' :
  String' n w = Ok (s, w') -> w' = w.
Proof.
  unfold String', String. intros H.
  repeat match type of H with
         | mbind _ ?r = _ => destruct r; cbn in H; [|discriminate]
         end.
  injection H as _ <-. reflexivity.
Qed.

Lemma Accepted_keeps_world n w r w' :
  Accepted n w = Ok (r, w') -> w' = w.
Proof.
  unfold Accepted. intros H. destruct (blk n) as [addr|].
  - destruct (deref (blocks w) addr); cbn in H; [|discriminate].
    injection H as _ <-. reflexivity.
  - injection H as _ <-. reflexivity.
Qed.

(** C7: [AddChild], [Accepted] and [String] leave the block store as they
    found it: no field of any block, its status included, is written. *)
Theorem node_operations_keep_blocks n child w :
  (forall n' w', AddChild n child w = Ok (n', w') -> blocks w' = blocks w) /\
  (forall r w', Accepted n w = Ok (r, w') -> blocks w' = blocks w) /\
  (forall s w', String' n w = Ok (s, w') -> blocks w' = blocks w).
Proof.
  split; [|split].
  - intros n' w' H. apply AddChild_Ok_inv in H as (c & _ & H).
    destruct H as [(_ & _ & ->) | (addr & t & m & _ & _ & _ & _ & ->)];
      reflexivity.
  - intros r w' H. apply Accepted_keeps_world in H as ->. reflexivity.
  - intros s w' H. apply String_keeps_world in H as ->. reflexivity.
Qed.
End Frame.

Definition nodeOfAWithChild : snowmanBlock :=
  {| params := sampleParams; blk := Some 0; shouldFalter := false;
     sb := Some 0; children := Some {[3%N := Some 2]} |}.

Definition worldWithC : World :=
  {| blocks := blocks sampleWorld;
     trees := [snowball.NewTree snowball.SnowballFactory sampleParams 3%N] |}.

Definition plain {A : Type} (_ : A) : string := "-"%string.

Lemma node_operations_keep_blocks_witness :
  exists n1 w1 r w2 s w3,
    (AddChild nodeOfAWithChild (Some 2) worldWithC = Ok (n1, w1) /\
     blocks w1 = blocks worldWithC) /\
    (Accepted nodeOfAWithChild worldWithC = Ok (r, w2) /\
     blocks w2 = blocks worldWithC) /\
    (String plain plain plain plain plain plain plain
       nodeOfAWithChild worldWithC = Ok (s, w3) /\
     blocks w3 = blocks worldWithC).
Proof.
  pose proof (node_operations_keep_blocks plain plain plain plain plain
                plain plain nodeOfAWithChild (Some 2) worldWithC)
    as (HA & HB & HC).
  eexists _, _, _, _, _, _.
  split; [|split].
  - split; [reflexivity|]. eapply HA. reflexivity.
  - split; [reflexivity|]. eapply HB. reflexivity.
  - split; [vm_compute; reflexivity|]. eapply HC. vm_compute. reflexivity.
Defined.

(** ** What changes a node *)

(** The fields [AddChild] leaves a node with. *)
Lemma AddChild_fields n child w n' w' :
  AddChild n child w = Ok (n', w') ->
  exists c,
    blockOf w child = Ok c /\
    n' = {| params := params n; blk := blk n;
            shouldFalter := shouldFalter n;
            sb := Some (default (length (trees w)) (sb n));
            children :=
              Some (<[ID c := child]>
                      (match sb n with
                       | None => ∅
                       | Some _ => default ∅ (children n)
                       end)) |}.
Proof.
  intros H. apply AddChild_Ok_inv in H as (c & Hc & H). exists c.
  split; [exact Hc|].
  destruct H as [(Hsb & -> & _) | (addr & t & m & Hsb & _ & Hm & -> & _)];
    rewrite Hsb; cbn.
  - rewrite insert_empty. reflexivity.
  - rewrite Hm. reflexivity.
Qed.

(** The engine's [Add] that adds the block: what it does to the tree. *)
Lemma engine_Add_added (e : topological.Engine) b e' :
  topological.Add e b = Ok (None, e') ->
  exists d parent parent',
    blockOf (topological.world e) b = Ok d /\
    topological.nodes e !! Parent d = Some parent /\
    topological.nodes e !! ID d = None /\
    AddChild parent b (topological.world e)
      = Ok (parent', topological.world e') /\
    topological.nodes e' !! Parent d = Some parent' /\
    topological.nodes e' !! ID d
      = Some (newSnowmanBlock (topological.params e) b) /\
    forall id, id <> Parent d -> id <> ID d ->
      topological.nodes e' !! id = topological.nodes e !! id.
Proof.
  unfold topological.Add. intros H.
  destruct (blockOf (topological.world e) b) as [d|] eqn:Hd; [|discriminate].
  cbn in H.
  destruct (topological.nodes e !! Parent d) as [parent|] eqn:Hp;
    [|discriminate].
  case_decide as Hdup; [discriminate|].
  destruct (AddChild parent b (topological.world e)) as [[parent' w']|] eqn:HA;
    [|discriminate].
  cbn in H. injection H as <-. cbn.
  assert (Hfree : topological.nodes e !! ID d = None).
  { destruct (topological.nodes e !! ID d) eqn:E; [|reflexivity].
    exfalso. apply Hdup. eauto. }
  assert (Hne : ID d <> Parent d) by congruence.
  exists d, parent, parent'.
  do 4 (split; [first [reflexivity | assumption]|]).
  split; [rewrite lookup_insert_ne by exact Hne; apply lookup_insert_eq|].
  split; [apply lookup_insert_eq|].
  intros id H1 H2. rewrite !lookup_insert_ne by congruence. reflexivity.
Qed.

(** The engine's [Add] that refuses the block leaves the engine as it is. *)
Lemma engine_Add_refused (e : topological.Engine) b err e' :
  topological.Add e b = Ok (Some err, e') -> e' = e.
Proof.
  unfold topological.Add. intros H.
  destruct (blockOf (topological.world e) b) as [d|]; [|discriminate].
  cbn in H.
  destruct (topological.nodes e !! Parent d) as [parent|];
    [|injection H as _ <-; reflexivity].
  case_decide; [injection H as _ <-; reflexivity|].
  destruct (AddChild parent b (topological.world e)) as [[parent' w']|];
    discriminate.
Qed.

(** C2, amended: besides [RecordPoll], adding a child block under a node
    mutates it.  [AddChild] sets [sb] when it was nil, which is at the first
    child, stores the child in [children] (in a new map when [sb] was nil),
    and keeps [params], [blk] and [shouldFalter]; it leaves the node as it
    was exactly when [sb] is non-nil and the child is stored under its
    identity already.  No other operation changes a field of an existing
    node or removes it: [Accepted] and [String] return no node and leave the
    world, where the node's snowball instance lives, as it was; the engine's
    [Add], when it refuses the block, changes nothing, and when it adds the
    block, replaces the parent by what [AddChild] makes of it, puts the new
    node under the identity of the block, which was free, and keeps every
    other node. *)
Theorem node_mutated_by_AddChild_alone :
  (forall n child w n' w',
     AddChild n child w = Ok (n', w') ->
     exists c,
       blockOf w child = Ok c /\
       params n' = params n /\ blk n' = blk n /\
       shouldFalter n' = shouldFalter n /\
       sb n' = Some (default (length (trees w)) (sb n)) /\
       children n' =
         Some (<[ID c := child]>
                 (match sb n with
                  | None => ∅
                  | Some _ => default ∅ (children n)
                  end)) /\
       (n' = n <->
        is_Some (sb n) /\
        exists m, children n = Some m /\ m !! ID c = Some child)) /\
  (forall n w r w', Accepted n w = Ok (r, w') -> w' = w) /\
  (forall fmtParams fmtID fmtStatus fmtHeight fmtTimestamp fmtTree fmtBlock
          n w s w',
     String fmtParams fmtID fmtStatus fmtHeight fmtTimestamp fmtTree fmtBlock
       n w = Ok (s, w') ->
     w' = w) /\
  (forall e b err e',
     topological.Add e b = Ok (Some err, e') -> e' = e) /\
  (forall e b e',
     topological.Add e b = Ok (None, e') ->
     exists d parent parent',
       blockOf (topological.world e) b = Ok d /\
       topological.nodes e !! Parent d = Some parent /\
       topological.nodes e !! ID d = None /\
       AddChild parent b (topological.world e)
         = Ok (parent', topological.world e') /\
       topological.nodes e' !! Parent d = Some parent' /\
       topological.nodes e' !! ID d
         = Some (newSnowmanBlock (topological.params e) b) /\
       forall id, id <> Parent d -> id <> ID d ->
         topological.nodes e' !! id = topological.nodes e !! id).
Proof.
  split; [|split; [|split; [|split]]].
  - intros n child w n' w' H.
    destruct (AddChild_fields _ _ _ _ _ H) as (c & Hc & Hn).
    exists c. split; [exact Hc|]. rewrite Hn at 1 2 3 4 5. cbn.
    repeat (split; [reflexivity|]).
    split.
    + intros E. rewrite E in Hn.
      destruct (AddChild_Ok_inv _ _ _ _ _ H) as (c' & Hc' & Hcase).
      assert (c' = c) as -> by congruence.
      destruct Hcase as [(Hsb & Hn' & _) | (addr & t & m & Hsb & _ & Hm & _)].
      * rewrite E in Hn'. rewrite Hn' in Hsb. discriminate.
      * split; [rewrite Hsb; eauto|]. exists m. split; [exact Hm|].
        assert (Hk : children n = Some (<[ID c := child]> m)).
        { rewrite Hn at 1. rewrite Hsb, Hm. reflexivity. }
        rewrite Hm in Hk. injection Hk as Hk. rewrite Hk.
        apply lookup_insert_eq.
    + intros ([addr Hsb] & m & Hm & Hin). rewrite Hn, Hsb, Hm. cbn.
      rewrite (insert_id _ _ _ Hin).
      destruct n as [p b f s ch]; cbn in *; subst s ch. reflexivity.
  - intros n w r w'. apply Accepted_keeps_world.
  - intros f1 f2 f3 f4 f5 f6 f7 n w s w'. apply String_keeps_world.
  - apply engine_Add_refused.
  - apply engine_Add_added.
Qed.

(** The engine with the genesis node alone, over the sample blocks. *)
Definition sampleEngine : topological.Engine :=
  topological.Initialize sampleParams sampleWorld 0%N.

Lemma node_mutated_by_AddChild_alone_witness :
  (exists n1 w1 c,
     AddChild genesis (Some 0) sampleWorld = Ok (n1, w1) /\
     blockOf sampleWorld (Some 0) = Ok c /\
     sb n1 = Some 0 /\
     children n1 = Some (<[ID c := Some 0]> ∅) /\
     n1 <> genesis) /\
  (exists w2,
     AddChild nodeWithA (Some 0) worldWithA = Ok (nodeWithA, w2)) /\
  (exists r, Accepted nodeOfC sampleWorld = Ok (r, sampleWorld)) /\
  (exists e' parent',
     topological.Add sampleEngine (Some 0) = Ok (None, e') /\
     topological.nodes e' !! 0%N = Some parent' /\
     sb parent' = Some 0 /\
     topological.nodes e' !! 1%N = Some (newSnowmanBlock sampleParams (Some 0))) /\
  topological.Add sampleEngine (Some 2)
    = Ok (Some topological.InvalidParent, sampleEngine).
Proof.
  destruct node_mutated_by_AddChild_alone as (H1 & H2 & _ & H4 & H5).
  split; [|split; [|split; [|split]]].
  - destruct (AddChild genesis (Some 0) sampleWorld) as [[n1 w1]|] eqn:E;
      [|discriminate].
    destruct (H1 genesis (Some 0) sampleWorld n1 w1 E)
      as (c & Hc & _ & _ & _ & Hsb & Hk & Hiff).
    exists n1, w1, c. split; [reflexivity|]. split; [exact Hc|].
    split; [exact Hsb|]. split; [exact Hk|].
    intros Heq. apply Hiff in Heq as [[a Ha] _]. discriminate.
  - destruct (AddChild nodeWithA (Some 0) worldWithA) as [[n2 w2]|] eqn:E;
      [|discriminate].
    destruct (H1 nodeWithA (Some 0) worldWithA n2 w2 E)
      as (c & Hc & _ & _ & _ & _ & _ & Hiff).
    assert (n2 = nodeWithA) as ->.
    { apply Hiff. split; [eexists; reflexivity|].
      exists {[1%N := Some 0]}. split; [reflexivity|].
      injection Hc as <-. reflexivity. }
    exists w2. reflexivity.
  - destruct (Accepted nodeOfC sampleWorld) as [[r w']|] eqn:E; [|discriminate].
    rewrite (H2 nodeOfC sampleWorld r w' E). eauto.
  - destruct (topological.Add sampleEngine (Some 0)) as [[[err|] e']|] eqn:E;
      try discriminate.
    destruct (H5 sampleEngine (Some 0) e' E)
      as (d & parent & parent' & Hd & Hp & _ & HA & Hp' & Hnew & _).
    injection Hd as <-. injection Hp as <-.
    exists e', parent'. split; [reflexivity|]. split; [exact Hp'|].
    split; [|exact Hnew].
    destruct (H1 _ _ _ _ _ HA) as (c & _ & _ & _ & _ & Hsb & _).
    exact Hsb.
  - destruct (topological.Add sampleEngine (Some 2)) as [[[err|] e']|] eqn:E;
      try discriminate.
    rewrite (H4 sampleEngine (Some 2) err e' E). injection E as <- _.
    reflexivity.
Defined.

End SnowmanBlock.

(** * Properties of the gossip mempool *)

Module GossipMempool.
Import network.

Section props.
Context {Tx error M V B : Type}.
Context `{!Mempool Tx error M, !TxVerifier Tx error V,
          !BloomFilter Tx error B}.
Variable txID : Tx -> ids.ID.
Variable errDuplicateTx : ids.ID -> error.

Abbreviation gossipMempool := (@gossipMempool M V B).
Abbreviation Add := (Add txID errDuplicateTx).
Abbreviation addOne := (addOne txID errDuplicateTx).
Abbreviation AddWithoutVerification := (AddWithoutVerification txID).

Implicit Types (g : gossipMempool) (tx : Tx) (txs : list Tx).

(** ** The loop of [Add] *)

Lemma Add_cons g tx txs :
  Add g (tx :: txs) =
    ((addOne g tx).1 :: (Add (addOne g tx).2 txs).1,
     (Add (addOne g tx).2 txs).2).
Proof.
  cbn. destruct (addOne g tx) as [e g1]. cbn.
  destruct (network.Add txID errDuplicateTx g1 txs). reflexivity.
Qed.

Lemma Add_length g txs : length (Add g txs).1 = length txs.
Proof.
  revert g. induction txs as [|tx txs IH]; intros g; [reflexivity|].
  rewrite Add_cons. cbn. f_equal. apply IH.
Qed.

(** The state before the turn for index [i]. *)
Definition stateBefore g txs (i : nat) : gossipMempool :=
  (Add g (take i txs)).2.

Lemma stateBefore_S g tx txs i :
  stateBefore g (tx :: txs) (S i) = stateBefore (addOne g tx).2 txs i.
Proof. unfold stateBefore. cbn [take]. rewrite Add_cons. reflexivity. Qed.

Lemma Add_lookup g txs i tx :
  txs !! i = Some tx ->
  (Add g txs).1 !! i = Some (addOne (stateBefore g txs i) tx).1 /\
  stateBefore g txs (S i) = (addOne (stateBefore g txs i) tx).2.
Proof.
  revert g i. induction txs as [|tx0 txs IH]; intros g i Hi; [discriminate|].
  destruct i as [|i].
  - injection Hi as ->. rewrite Add_cons. split; [reflexivity|].
    rewrite stateBefore_S. reflexivity.
  - rewrite Add_cons, !stateBefore_S. cbn. apply IH. exact Hi.
Qed.

Lemma addOne_verification_failure g tx e :
  Get (mempool g) (txID tx) = None ->
  GetDropReason (mempool g) (txID tx) = None ->
  VerifyTx (txVerifier g) tx = Some e ->
  addOne g tx =
    (Some e,
     {| mempool := MarkDropped (mempool g) (txID tx) e; log := log g;
        txVerifier := txVerifier g; bloom := bloom g |}).
Proof.
  intros HG HD HV. unfold network.addOne. rewrite HG, HD, HV. reflexivity.
Qed.

(** ** The invariant on the bloom filter *)

Lemma Iterate_all {S : Type} (f : Tx -> S -> S) txs (s : S) :
  Iterate txs (fun tx s => (true, f tx s)) s = foldl (flip f) s txs.
Proof.
  revert s. induction txs as [|tx txs IH]; intros s; [reflexivity|].
  cbn. apply IH.
Qed.

Section invariant.
Context (Added : B -> Tx -> Prop).
Context `{!GossipLaws Tx error M B Added}.

(** Every transaction in the mempool has been added to the filter. *)
Definition bloomCovers g : Prop :=
  forall t, t ∈ Txs (mempool g) -> Added (bloom g) t.

Lemma Added_foldl txs b t :
  Added b t \/ t ∈ txs -> Added (foldl BloomAdd b txs) t.
Proof.
  revert b. induction txs as [|tx txs IH]; intros b [H|H]; cbn.
  - exact H.
  - inversion H.
  - apply IH. left. apply Added_BloomAdd_mono. exact H.
  - apply IH. apply elem_of_cons in H as [->|H].
    + left. apply Added_BloomAdd.
    + right. exact H.
Qed.


(** C10: if every transaction in the mempool has been added to the
    bloom filter before a call of [AddWithoutVerification] that returns
    nil, the same holds after it, with or without a reset; after a
    reset the filter is the reset one with every transaction of the
    mempool added to it. *)
Theorem AddWithoutVerification_keeps_bloomCovers g tx g' :
  bloomCovers g ->
  AddWithoutVerification g tx = (None, g') ->
  bloomCovers g' /\
  forall m1 b2,
    MempoolAdd (mempool g) tx = (None, m1) ->
    ResetBloomFilterIfNeeded (BloomAdd (bloom g) tx)
      (wrapInt (Len m1 * bloomChurnMultiplier)) = (true, None, b2) ->
    bloom g' = foldl BloomAdd b2 (Txs m1).
Proof.
  intros Hinv. unfold network.AddWithoutVerification.
  destruct (MempoolAdd (mempool g) tx) as [[err|] m1] eqn:HA;
    [discriminate|].
  destruct (ResetBloomFilterIfNeeded (BloomAdd (bloom g) tx)
              (wrapInt (Len m1 * bloomChurnMultiplier)))
    as [[reset [e|]] b2] eqn:HR; [discriminate|].
  destruct reset; intros [= <-]; cbn; (split; [intros t Ht; cbn in *|]).
  - rewrite Iterate_all. apply Added_foldl. right.
    apply (RequestBuildBlock_Txs (Added := Added)). exact Ht.
  - intros m1' b2' [= <-] HR2. rewrite HR in HR2.
    injection HR2 as <-. apply Iterate_all.
  - apply (Added_not_reset _ _ _ _ HR).
    apply (RequestBuildBlock_Txs (Added := Added)) in Ht.
    destruct (MempoolAdd_Txs (Added := Added) _ _ _ _ HA Ht) as [->|Hold].
    + apply Added_BloomAdd.
    + apply Added_BloomAdd_mono. apply Hinv. exact Hold.
  - intros m1' b2' [= <-] HR2. rewrite HR in HR2. discriminate.
Qed.

End invariant.

(** C9, amended: [Add] returns one error per transaction, the one at index
    [i] being the outcome of the turn for the transaction at index [i].  If
    the transaction is not in the mempool and has no recorded drop reason when
    its turn comes, and [VerifyTx] answers an error for it, then that error
    is the one at its index, and the turn does nothing but mark the
    transaction dropped with that error (the mempool's own [Add] is not
    called, the filter is as before). *)
Theorem Add_reports_verification_failure g txs :
  length (Add g txs).1 = length txs /\
  forall i tx,
    txs !! i = Some tx ->
    let gi := stateBefore g txs i in
    (Add g txs).1 !! i = Some (addOne gi tx).1 /\
    forall e,
      Get (mempool gi) (txID tx) = None ->
      GetDropReason (mempool gi) (txID tx) = None ->
      VerifyTx (txVerifier gi) tx = Some e ->
      (Add g txs).1 !! i = Some (Some e) /\
      stateBefore g txs (S i) =
        {| mempool := MarkDropped (mempool gi) (txID tx) e;
           log := log gi; txVerifier := txVerifier gi;
           bloom := bloom gi |}.
Proof.
  split; [apply Add_length|].
  intros i tx Hi gi. destruct (Add_lookup g txs i tx Hi) as [He Hs].
  split; [exact He|]. intros e HG HD HV.
  fold gi in He, Hs.
  rewrite (addOne_verification_failure gi tx e HG HD HV) in He, Hs.
  split; [exact He | exact Hs].
Qed.

End props.

(** ** Running the sample implementation *)

Import sample.

Lemma sample_laws : GossipLaws N string pool filter filterAdded.
Proof.
  split.
  - intros m tx m' t. cbn. unfold poolAdd.
    repeat case_decide; intros [= <-]; cbn; [].
    rewrite elem_of_app, list_elem_of_singleton. tauto.
  - intros m t H. exact H.
  - intros b tx. unfold filterAdded. cbn. left.
  - intros b tx t H. unfold filterAdded. cbn. right. exact H.
  - intros b target b' t. cbn. case_decide; intros [= <-]. tauto.
Qed.

Definition emptyPool : pool :=
  {| unissued := []; dropped := ∅; capacity := 4 |}.

Definition start : @gossipMempool pool (list N) filter :=
  {| mempool := emptyPool; log := []; txVerifier := [7%N];
     bloom := {| entries := []; maxCount := 1 |} |}.

Definition afterSix : @gossipMempool pool (list N) filter :=
  {| mempool := {| unissued := [6%N]; dropped := ∅; capacity := 4 |};
     log := []; txVerifier := [7%N];
     bloom := {| entries := [6%N]; maxCount := 1 |} |}.

(** The verifier rejects 7, which is in the mempool already. *)
Definition inPool : @gossipMempool pool (list N) filter :=
  {| mempool := {| unissued := [7%N]; dropped := ∅; capacity := 4 |};
     log := []; txVerifier := [7%N];
     bloom := {| entries := [7%N]; maxCount := 1 |} |}.

(** The verifier rejects 7, which was dropped before for another reason. *)
Definition droppedBefore : @gossipMempool pool (list N) filter :=
  {| mempool := {| unissued := [];
                   dropped := {[7%N := "conflicts with an accepted tx"%string]};
                   capacity := 4 |};
     log := []; txVerifier := [7%N];
     bloom := {| entries := []; maxCount := 1 |} |}.

(** C9, as stated, fails: a transaction that [VerifyTx] rejects is not
    verified when it is in the mempool already, or when a drop reason is
    recorded for it.  The error at its index is then the duplicate error, or
    the recorded reason, and the transaction is not marked dropped with the
    verification error. *)
Lemma Add_skips_verification_counterexample :
  (VerifyTx (txVerifier inPool) 7%N = Some "invalid tx"%string /\
   Add txID duplicateError inPool [7%N] =
     ([Some "attempted to issue duplicate tx"%string], inPool) /\
   GetDropReason (mempool inPool) (txID 7%N) = None) /\
  (VerifyTx (txVerifier droppedBefore) 7%N = Some "invalid tx"%string /\
   Add txID duplicateError droppedBefore [7%N] =
     ([Some "conflicts with an accepted tx"%string], droppedBefore) /\
   GetDropReason (mempool droppedBefore) (txID 7%N) =
     Some "conflicts with an accepted tx"%string).
Proof. repeat split; vm_compute; reflexivity. Qed.

Lemma Add_reports_verification_failure_witness :
  [6%N; 7%N; 8%N] !! 1 = Some 7%N /\
  stateBefore txID duplicateError start [6%N; 7%N; 8%N] 1 = afterSix /\
  Get (mempool afterSix) (txID 7%N) = None /\
  GetDropReason (mempool afterSix) (txID 7%N) = None /\
  VerifyTx (txVerifier afterSix) 7%N = Some "invalid tx"%string /\
  length (Add txID duplicateError start [6%N; 7%N; 8%N]).1 = 3 /\
  (Add txID duplicateError start [6%N; 7%N; 8%N]).1 !! 1 =
    Some (Some "invalid tx"%string) /\
  stateBefore txID duplicateError start [6%N; 7%N; 8%N] 2 =
    {| mempool := MarkDropped (mempool afterSix) (txID 7%N) "invalid tx"%string;
       log := log afterSix; txVerifier := txVerifier afterSix;
       bloom := bloom afterSix |}.
Proof.
  assert (E : stateBefore txID duplicateError start [6%N; 7%N; 8%N] 1
              = afterSix) by (vm_compute; reflexivity).
  destruct (Add_reports_verification_failure txID duplicateError start
              [6%N; 7%N; 8%N]) as [HL HI].
  destruct (HI 1 7%N eq_refl) as [_ HV]. cbv zeta in HV. rewrite E in HV.
  destruct (HV "invalid tx"%string) as [H1 H2];
    [vm_compute; reflexivity ..|].
  repeat split; try (vm_compute; reflexivity); assumption.
Defined.

(** A filter about to overflow: the next transaction triggers the reset. *)
Definition beforeReset : @gossipMempool pool (list N) filter :=
  {| mempool := {| unissued := [6%N]; dropped := ∅; capacity := 4 |};
     log := []; txVerifier := [7%N];
     bloom := {| entries := [6%N; 5%N]; maxCount := 2 |} |}.

Definition afterReset : @gossipMempool pool (list N) filter :=
  {| mempool := {| unissued := [6%N; 8%N]; dropped := ∅; capacity := 4 |};
     log := ["resetting bloom filter"%string]; txVerifier := [7%N];
     bloom := {| entries := [8%N; 6%N]; maxCount := 6 |} |}.

Lemma AddWithoutVerification_keeps_bloomCovers_witness :
  bloomCovers filterAdded beforeReset /\
  AddWithoutVerification txID beforeReset 8%N = (None, afterReset) /\
  bloomCovers filterAdded afterReset.
Proof.
  assert (H0 : bloomCovers filterAdded beforeReset).
  { intros t Ht. cbn in Ht. apply list_elem_of_singleton in Ht as ->.
    unfold filterAdded. cbn. left. }
  assert (E : AddWithoutVerification txID beforeReset 8%N = (None, afterReset))
    by (vm_compute; reflexivity).
  split; [exact H0|]. split; [exact E|].
  exact (proj1 (AddWithoutVerification_keeps_bloomCovers
                  (GossipLaws0 := sample_laws) txID filterAdded
                  beforeReset 8%N afterReset H0 E)).
Defined.

End GossipMempool.

(** * Safety of the consensus engine *)

Module Safety.
Import snowman topological.

(** ** Trees without cycles *)

Section forest.
Context {A : Type} (R : relation A).
Hypothesis functional : forall x y z, R x y -> R x z -> y = z.
Hypothesis acyclic : forall x, ~ tc R x x.

(** Two ways up from one node lie on one line. *)
Lemma rtc_linear x y z : rtc R x y -> rtc R x z -> rtc R y z \/ rtc R z y.
Proof.
  intros Hy. revert z. induction Hy as [x | x x' y Hstep Hy IH]; intros z Hz.
  - left. exact Hz.
  - destruct (rtc_inv _ _ Hz) as [<- | (x'' & Hstep' & Hz')].
    + right. eapply rtc_l; eassumption.
    + rewrite <- (functional _ _ _ Hstep Hstep') in Hz'. apply IH, Hz'.
Qed.

Lemma child_not_above_sibling a s p :
  R a p -> R s p -> s <> a -> ~ rtc R a s.
Proof.
  intros Ha Hs Hne Hrtc.
  destruct (rtc_inv _ _ Hrtc) as [E | (a' & Ha' & Hup)]; [congruence|].
  rewrite <- (functional _ _ _ Ha Ha') in Hup.
  apply (acyclic s). eapply tc_rtc_r; [apply tc_once, Hs | exact Hup].
Qed.

(** Nothing lies below two siblings. *)
Lemma siblings_share_no_descendant a s p d :
  R a p -> R s p -> s <> a -> rtc R d a -> rtc R d s -> False.
Proof.
  intros Ha Hs Hne Hda Hds.
  destruct (rtc_linear _ _ _ Hda Hds) as [H | H].
  - exact (child_not_above_sibling a s p Ha Hs Hne H).
  - apply (child_not_above_sibling s a p Hs Ha); [congruence | exact H].
Qed.
End forest.

(** ** Parent linkage in a well-formed store *)

Lemma linkage_lookup w addr c p h :
  linkage w !! addr = Some (c, p, h) <->
  exists d, blocks w !! addr = Some d /\ ID d = c /\ Parent d = p /\ Height d = h.
Proof.
  unfold linkage. rewrite list_lookup_fmap_Some. split.
  - intros (d & E & Hd). injection E as -> -> ->. exists d. auto.
  - intros (d & Hd & <- & <- & <-). exists d. auto.
Qed.

Lemma uniqueIDs_same w a1 a2 d1 d2 :
  uniqueIDs w = true ->
  blocks w !! a1 = Some d1 -> blocks w !! a2 = Some d2 ->
  ID d1 = ID d2 -> d1 = d2.
Proof.
  intros Hu H1 H2 E. apply bool_decide_eq_true_1 in Hu.
  assert (a1 = a2) as ->; [|congruence].
  apply (NoDup_lookup _ a1 a2 (ID d1) Hu); rewrite list_lookup_fmap.
  - rewrite H1. reflexivity.
  - rewrite H2, E. reflexivity.
Qed.

Lemma heightsIncrease_lt w a1 a2 d1 d2 :
  heightsIncrease w = true ->
  blocks w !! a1 = Some d1 -> blocks w !! a2 = Some d2 ->
  Parent d1 = ID d2 -> (Height d2 < Height d1)%N.
Proof.
  intros Hh H1 H2 E. unfold heightsIncrease in Hh.
  apply Is_true_true_2, forallb_True in Hh.
  rewrite Forall_forall in Hh.
  specialize (Hh d1 (list_elem_of_lookup_2 _ _ _ H1)).
  apply forallb_True in Hh. rewrite Forall_forall in Hh.
  specialize (Hh d2 (list_elem_of_lookup_2 _ _ _ H2)).
  rewrite decide_True in Hh by exact E.
  apply Is_true_true_1, bool_decide_eq_true_1 in Hh. exact Hh.
Qed.

Section store.
Variable w : World.
Hypothesis Hunique : uniqueIDs w = true.
Hypothesis Hheights : heightsIncrease w = true.

Lemma isParent_functional c p1 p2 :
  isParent w c p1 -> isParent w c p2 -> p1 = p2.
Proof.
  intros (a1 & h1 & H1) (a2 & h2 & H2).
  apply linkage_lookup in H1 as (d1 & H1 & Hc1 & <- & _).
  apply linkage_lookup in H2 as (d2 & H2 & Hc2 & <- & _).
  rewrite (uniqueIDs_same w a1 a2 d1 d2 Hunique H1 H2); congruence.
Qed.

Lemma tc_isParent_has_block x y :
  tc (isParent w) x y -> exists a d, blocks w !! a = Some d /\ ID d = x.
Proof.
  intros H. assert (exists z, isParent w x z) as (z & a & h & Hl).
  { destruct H as [x y H | x z y H _]; eauto. }
  apply linkage_lookup in Hl as (d & Hd & Hc & _). eauto.
Qed.

Lemma tc_isParent_height x y :
  tc (isParent w) x y ->
  forall ax ay dx dy,
    blocks w !! ax = Some dx -> ID dx = x ->
    blocks w !! ay = Some dy -> ID dy = y ->
    (Height dy < Height dx)%N.
Proof.
  induction 1 as [x y (a & h & Hl) | x z y (a & h & Hl) Hzy IH];
    intros ax ay dx dy Hx Ex Hy Ey;
    apply linkage_lookup in Hl as (d & Hd & Hc & Hp & _);
    assert (d = dx) as -> by (eapply uniqueIDs_same; eauto; congruence).
  - eapply heightsIncrease_lt; eauto. congruence.
  - destruct (tc_isParent_has_block _ _ Hzy) as (az & dz & Hz & Ez).
    specialize (IH az ay dz dy Hz Ez Hy Ey).
    assert (Height dz < Height dx)%N
      by (eapply heightsIncrease_lt; eauto; congruence).
    lia.
Qed.

Lemma isParent_acyclic x : ~ tc (isParent w) x x.
Proof.
  intros H. destruct (tc_isParent_has_block _ _ H) as (a & d & Hd & E).
  pose proof (tc_isParent_height _ _ H a a d d Hd E Hd E). lia.
Qed.

(** A block below an accepted block is below none of its siblings. *)
Lemma sibling_not_above_descendant a s d :
  isSibling w s a -> isAncestor w a d -> ~ isAncestor w s d.
Proof.
  intros (Hne & p & Hs & Ha) Hda Hds.
  exact (siblings_share_no_descendant (isParent w) isParent_functional
           isParent_acyclic a s p d Ha Hs Hne Hda Hds).
Qed.
End store.

(** ** What the engine keeps true *)

(** The children of the node kept under [id] are blocks of the store whose
    parent is [id], each under its own identity. *)
Definition kidsOK (w0 : World) (id : ids.ID) (n : snowmanBlock) : Prop :=
  forall kids cid b,
    children n = Some kids -> kids !! cid = Some b ->
    exists addr h, b = Some addr /\ linkage w0 !! addr = Some (cid, id, h).

(** [w0] is the store the engine started with.  The callbacks change
    statuses only; every accepted block is the root or above it; of two
    accepted blocks the earlier is above the later. *)
Record invariant (w0 : World) (e : Engine) : Prop := {
  inv_linkage : linkage (world e) = linkage w0;
  inv_nodes : forall id n, nodes e !! id = Some n -> kidsOK w0 id n;
  inv_below : forall a, a ∈ accepted (events e) -> isAncestor w0 a (root e);
  inv_order : forall i j a d,
    i < j ->
    accepted (events e) !! i = Some a ->
    accepted (events e) !! j = Some d ->
    isAncestor w0 a d
}.

Lemma invariant_Initialize p w0 g : invariant w0 (Initialize p w0 g).
Proof.
  split; cbn.
  - reflexivity.
  - intros id n H. apply lookup_singleton_Some in H as [_ <-].
    intros kids cid b H. discriminate.
  - intros a H. inversion H.
  - intros i j a d _ H. discriminate.
Qed.

Lemma accepted_snoc_accept evs id :
  accepted (evs ++ [OnAccept id]) = accepted evs ++ [id].
Proof. unfold accepted. rewrite omap_app. reflexivity. Qed.

Lemma accepted_snoc_reject evs id :
  accepted (evs ++ [OnReject id]) = accepted evs.
Proof. unfold accepted. rewrite omap_app. cbn. apply app_nil_r. Qed.

Lemma linkage_setStatus w b st : linkage (setStatus w b st) = linkage w.
Proof.
  destruct b as [addr|]; [|reflexivity]. unfold linkage, setStatus. cbn.
  apply list_eq. intros i. rewrite !list_lookup_fmap, list_lookup_alter.
  case_decide as E; [|reflexivity].
  subst i. destruct (blocks w !! addr); reflexivity.
Qed.

(** *** Adding a block *)

Lemma invariant_Add w0 e b err e' :
  invariant w0 e -> Add e b = Ok (err, e') -> invariant w0 e'.
Proof.
  intros [Hl Hn Hb Ho]. unfold Add. intros H.
  destruct (blockOf (world e) b) as [d|] eqn:Hd; [|discriminate]. cbn in H.
  destruct (nodes e !! Parent d) as [parent|] eqn:Hp;
    [|injection H as _ <-; split; assumption].
  case_decide as Hdup; [injection H as _ <-; split; assumption|].
  destruct (AddChild parent b (world e)) as [[parent' w']|] eqn:HA;
    [|discriminate].
  cbn in H. injection H as _ <-.
  destruct (SnowmanBlock.AddChild_Ok_inv _ _ _ _ _ HA) as (c & Hc & Hcase).
  assert (c = d) as -> by congruence.
  assert (Hw' : blocks w' = blocks (world e))
    by (destruct Hcase as [(_ & _ & ->) | (? & ? & ? & _ & _ & _ & _ & ->)];
        reflexivity).
  assert (Hnew : exists addr,
             b = Some addr /\
             linkage w0 !! addr = Some (ID d, Parent d, Height d)).
  { destruct b as [addr|]; [|discriminate]. exists addr. split; [reflexivity|].
    rewrite <- Hl. apply linkage_lookup. exists d. repeat split.
    unfold blockOf, deref in Hd.
    destruct (blocks (world e) !! addr); congruence. }
  destruct Hnew as (addr & -> & Hlink).
  split; cbn; try assumption.
  - unfold linkage. rewrite Hw'. exact Hl.
  - intros id n Hid. apply lookup_insert_Some in Hid as [[<- <-] | [_ Hid]].
    { intros kids cid b' H. discriminate. }
    apply lookup_insert_Some in Hid as [[<- <-] | [_ Hid]]; [|eauto].
    intros kids cid b' Hk Hcid.
    destruct Hcase as [(_ & -> & _) | (? & ? & m & _ & _ & Hm & -> & _)];
      cbn in Hk; injection Hk as <-.
    + apply lookup_singleton_Some in Hcid as [<- <-]. eauto.
    + apply lookup_insert_Some in Hcid as [[<- <-] | [_ Hcid]]; [eauto|].
      exact (Hn _ _ Hp _ _ _ Hm Hcid).
Qed.

(** *** Rejecting the siblings *)

Lemma rejectAll_keeps e (l : list (ids.ID * snowmanBlock)) :
  let e' := foldl (fun acc kv => rejectOne acc kv.1 kv.2) e l in
  linkage (world e') = linkage (world e) /\
  root e' = root e /\
  accepted (events e') = accepted (events e) /\
  forall id n, nodes e' !! id = Some n -> nodes e !! id = Some n.
Proof.
  revert e. induction l as [|[k v] l IH]; intros e; cbn.
  - auto.
  - destruct (IH (rejectOne e k v)) as (H1 & H2 & H3 & H4). cbn in *.
    rewrite H1, H2, H3, linkage_setStatus, accepted_snoc_reject.
    repeat split. intros id n H. apply H4 in H.
    apply lookup_delete_Some in H as [_ H]. exact H.
Qed.

(** *** Accepting the preferred child *)

Lemma invariant_acceptChild w0 e n kids pref child :
  invariant w0 e ->
  nodes e !! root e = Some n ->
  children n = Some kids ->
  kids !! pref = Some child ->
  invariant w0 (acceptChild e kids pref child).
Proof.
  intros [Hl Hn Hb Ho] Hroot Hkids Hpref.
  destruct (Hn _ _ Hroot _ _ _ Hkids Hpref) as (addr & h & -> & Hlink).
  assert (Hpar : isParent w0 pref (root e)) by (exists addr, h; exact Hlink).
  unfold acceptChild.
  match goal with
  | |- context [rejectSiblings ?e1 ?sibs] =>
      pose proof (rejectAll_keeps e1
                    (filter (fun kv => inSiblingSubtree e1 sibs kv.1 = true)
                            (map_to_list (nodes e1))))
        as (H1 & H2 & H3 & H4);
      fold (rejectSiblings e1 sibs) in H1, H2, H3, H4;
      cbn -[setStatus rejectSiblings] in H1, H2, H3, H4;
      set (e2 := rejectSiblings e1 sibs) in *; clearbody e2
  end.
  rewrite linkage_setStatus in H1. rewrite accepted_snoc_accept in H3.
  split; cbn -[accepted].
  - rewrite H1. exact Hl.
  - intros id m Hid. apply lookup_delete_Some in Hid as [_ Hid].
    apply H4 in Hid. eauto.
  - rewrite H3. intros a Ha. apply elem_of_app in Ha as [Ha | Ha].
    + eapply rtc_l; [exact Hpar | apply Hb, Ha].
    + apply list_elem_of_singleton in Ha as ->. apply rtc_refl.
  - rewrite H3. intros i j a d Hij Hi Hj.
    apply lookup_snoc_Some in Hj as [[Hlt Hj] | [Hjlen <-]].
    + rewrite lookup_app_l in Hi by lia. eauto.
    + rewrite lookup_app_l in Hi by lia.
      eapply rtc_l; [exact Hpar|].
      apply Hb. eapply list_elem_of_lookup_2, Hi.
Qed.

(** *** Recording a poll *)

Lemma invariant_markFalter w0 e counts :
  invariant w0 e -> invariant w0 (markFalter e counts).
Proof.
  intros [Hl Hn Hb Ho]. split; cbn; try assumption.
  intros id n' H. rewrite map_lookup_imap in H.
  destruct (nodes e !! id) as [n|] eqn:Hid; [|discriminate].
  cbn in H. injection H as <-.
  intros kids cid b Hk Hcid. exact (Hn _ _ Hid _ _ _ Hk Hcid).
Qed.

Lemma invariant_setTree w0 e addr t :
  invariant w0 e -> invariant w0 (setTree e addr t).
Proof. intros [Hl Hn Hb Ho]. split; cbn; assumption. Qed.

Lemma invariant_cascade w0 fuel counts e :
  invariant w0 e -> invariant w0 (cascade fuel counts e).
Proof.
  revert e. induction fuel as [|fuel IH]; intros e Hinv; [exact Hinv|].
  cbn [cascade].
  destruct (nodes e !! root e) as [n|] eqn:Hroot; [|exact Hinv].
  destruct (sb n) as [addr|]; [|exact Hinv].
  destruct (trees (world e) !! addr) as [t|]; [|exact Hinv].
  set (t' := snowball.RecordPoll t _ _).
  pose proof (invariant_setTree w0 e addr t' Hinv) as Hinv1.
  destruct (snowball.Finalized t'); [|exact Hinv1].
  destruct (children n) as [kids|] eqn:Hkids; [|exact Hinv1].
  destruct (kids !! snowball.Preference t') as [child|] eqn:Hpref;
    [|exact Hinv1].
  apply IH.
  exact (invariant_acceptChild w0 (setTree e addr t') n kids _ child
           Hinv1 Hroot Hkids Hpref).
Qed.

Lemma invariant_RecordPoll w0 e voteBag :
  invariant w0 e -> invariant w0 (RecordPoll e voteBag).
Proof.
  intros H. unfold RecordPoll. apply invariant_cascade, invariant_markFalter, H.
Qed.

Lemma invariant_run w0 calls e e' :
  invariant w0 e -> run e calls = Ok e' -> invariant w0 e'.
Proof.
  revert e. induction calls as [|c calls IH]; intros e Hinv H; cbn in H.
  - injection H as <-. exact Hinv.
  - destruct (step e c) as [e1|] eqn:Hstep; [|discriminate]. cbn in H.
    apply (IH e1); [|exact H].
    destruct c as [b | voteBag]; cbn in Hstep.
    + destruct (Add e b) as [[err e2]|] eqn:HA; [|discriminate].
      cbn in Hstep. injection Hstep as <-.
      exact (invariant_Add w0 e b err e2 Hinv HA).
    + injection Hstep as <-. apply invariant_RecordPoll, Hinv.
Qed.

(** ** Runs return *)

(** Every node of the tree is in good shape. *)
Definition nodesOK (e : Engine) : Prop :=
  forall id n, nodes e !! id = Some n -> nodeOK n (world e) = true.

Lemma nodeOK_heap n w w' :
  length (trees w) <= length (trees w') ->
  nodeOK n w = true -> nodeOK n w' = true.
Proof.
  unfold nodeOK. intros Hlen H.
  destruct (sb n), (children n); try discriminate; [|reflexivity].
  apply bool_decide_eq_true_1 in H. apply bool_decide_eq_true_2. lia.
Qed.

Lemma nodesOK_Initialize p w g : nodesOK (Initialize p w g).
Proof.
  intros id n H. cbn in H. apply lookup_singleton_Some in H as [_ <-].
  reflexivity.
Qed.

Lemma Add_returns e b d :
  nodesOK e -> blockOf (world e) b = Ok d ->
  exists err e', Add e b = Ok (err, e') /\ nodesOK e' /\
                 length (blocks (world e')) = length (blocks (world e)).
Proof.
  intros Hok Hd. unfold Add. rewrite Hd. cbn.
  destruct (nodes e !! Parent d) as [parent|] eqn:Hp; [|eauto].
  case_decide; [eauto|].
  destruct (SnowmanBlock.AddChild_total parent b (world e) d (Hok _ _ Hp) Hd)
    as (parent' & w' & HA & Hok').
  rewrite HA. cbn. eexists _, _. split; [reflexivity|].
  destruct (SnowmanBlock.AddChild_Ok_inv _ _ _ _ _ HA) as (c & _ & Hcase).
  assert (Hlen : length (trees (world e)) <= length (trees w') /\
                 blocks w' = blocks (world e)).
  { destruct Hcase as [(_ & _ & ->) | (? & ? & ? & _ & _ & _ & _ & ->)]; cbn.
    - rewrite length_app. split; [lia | reflexivity].
    - rewrite length_insert. split; [lia | reflexivity]. }
  destruct Hlen as [Hlen Hblocks]. split; [|cbn; rewrite Hblocks; reflexivity].
  intros id n Hid. cbn in *.
  apply lookup_insert_Some in Hid as [[_ <-] | [_ Hid]]; [reflexivity|].
  apply lookup_insert_Some in Hid as [[_ <-] | [_ Hid]]; [exact Hok'|].
  eapply nodeOK_heap; [exact Hlen | eauto].
Qed.

Lemma length_blocks_setStatus w b st :
  length (blocks (setStatus w b st)) = length (blocks w).
Proof. destruct b; cbn; [apply length_alter | reflexivity]. Qed.

Lemma trees_setStatus w b st : trees (setStatus w b st) = trees w.
Proof. destruct b; reflexivity. Qed.

Lemma rejectAll_shape e (l : list (ids.ID * snowmanBlock)) :
  let e' := foldl (fun acc kv => rejectOne acc kv.1 kv.2) e l in
  trees (world e') = trees (world e) /\
  length (blocks (world e')) = length (blocks (world e)).
Proof.
  revert e. induction l as [|[k v] l IH]; intros e; cbn; [auto|].
  destruct (IH (rejectOne e k v)) as (H1 & H2). cbn -[setStatus] in *.
  rewrite H1, H2, trees_setStatus, length_blocks_setStatus. auto.
Qed.

Lemma acceptChild_shape e kids pref child :
  let e' := acceptChild e kids pref child in
  trees (world e') = trees (world e) /\
  length (blocks (world e')) = length (blocks (world e)) /\
  forall id n, nodes e' !! id = Some n -> nodes e !! id = Some n.
Proof.
  unfold acceptChild.
  match goal with
  | |- context [rejectSiblings ?e1 ?sibs] =>
      pose proof (rejectAll_shape e1
                    (filter (fun kv => inSiblingSubtree e1 sibs kv.1 = true)
                            (map_to_list (nodes e1)))) as (H1 & H2);
      pose proof (rejectAll_keeps e1
                    (filter (fun kv => inSiblingSubtree e1 sibs kv.1 = true)
                            (map_to_list (nodes e1)))) as (_ & _ & _ & H4);
      fold (rejectSiblings e1 sibs) in H1, H2, H4;
      cbn -[setStatus rejectSiblings] in H1, H2, H4;
      set (e2 := rejectSiblings e1 sibs) in *; clearbody e2
  end.
  rewrite trees_setStatus in H1. rewrite length_blocks_setStatus in H2.
  cbn. repeat split; try assumption.
  intros id n H. apply lookup_delete_Some in H as [_ H]. auto.
Qed.

Lemma cascade_shape fuel counts e :
  nodesOK e ->
  nodesOK (cascade fuel counts e) /\
  length (blocks (world (cascade fuel counts e))) = length (blocks (world e)).
Proof.
  revert e. induction fuel as [|fuel IH]; intros e Hok; [auto|].
  cbn [cascade].
  destruct (nodes e !! root e) as [n|]; [|auto].
  destruct (sb n) as [addr|]; [|auto].
  destruct (trees (world e) !! addr) as [t|]; [|auto].
  set (t' := snowball.RecordPoll t _ _).
  assert (Hok1 : nodesOK (setTree e addr t')).
  { intros id m Hid. cbn in Hid. eapply nodeOK_heap; [|exact (Hok _ _ Hid)].
    cbn. rewrite length_insert. lia. }
  destruct (snowball.Finalized t'); [|auto].
  destruct (children n) as [kids|]; [|auto].
  destruct (kids !! snowball.Preference t') as [child|]; [|auto].
  destruct (acceptChild_shape (setTree e addr t') kids
              (snowball.Preference t') child) as (H1 & H2 & H3).
  destruct (IH (acceptChild (setTree e addr t') kids
                  (snowball.Preference t') child)) as (H4 & H5).
  { intros id m Hid. eapply nodeOK_heap; [|exact (Hok1 _ _ (H3 _ _ Hid))].
    rewrite H1. lia. }
  split; [exact H4|]. rewrite H5, H2. reflexivity.
Qed.

Lemma RecordPoll_shape e voteBag :
  nodesOK e ->
  nodesOK (RecordPoll e voteBag) /\
  length (blocks (world (RecordPoll e voteBag))) = length (blocks (world e)).
Proof.
  intros Hok. unfold RecordPoll.
  apply (cascade_shape _ _ (markFalter e (countVotes e voteBag))).
  intros id n' H. cbn in H. rewrite map_lookup_imap in H.
  destruct (nodes e !! id) as [n|] eqn:Hid; [|discriminate].
  cbn in H. injection H as <-. exact (Hok _ _ Hid).
Qed.

(** A call is well-formed when the block it adds is in the store. *)
Definition callOK (size : nat) (c : Call) : bool :=
  match c with
  | CallAdd b => match b with
                 | Some addr => bool_decide (addr < size)
                 | None => false
                 end
  | CallRecordPoll _ => true
  end.

(** A run of well-formed calls returns: no call panics. *)
Lemma run_returns e calls :
  nodesOK e ->
  forallb (callOK (length (blocks (world e)))) calls = true ->
  exists e', run e calls = Ok e'.
Proof.
  revert e. induction calls as [|c calls IH]; intros e Hok Hcalls.
  - cbn. eauto.
  - cbn in Hcalls. apply andb_prop in Hcalls as [Hc Hcalls].
    cbn [run].
    destruct c as [[addr|] | voteBag]; cbn in Hc; try discriminate;
      cbn [step].
    + apply bool_decide_eq_true_1 in Hc.
      destruct (lookup_lt_is_Some_2 _ _ Hc) as [d Hd].
      destruct (Add_returns e (Some addr) d Hok) as (err & e1 & HA & Hok1 & Hlen).
      { unfold blockOf, deref. rewrite Hd. reflexivity. }
      rewrite HA. cbn [mbind result_bind]. apply IH; [exact Hok1|].
      rewrite Hlen. exact Hcalls.
    + destruct (RecordPoll_shape e voteBag Hok) as (Hok1 & Hlen).
      cbn [mbind result_bind]. apply IH; [exact Hok1|].
      rewrite Hlen. exact Hcalls.
Qed.

(** ** Safety *)

(** C8: on a store of blocks with unique identities and heights increasing
    from parent to child, whatever calls of [Add] and [RecordPoll] the engine
    receives from its initial state, a block reported through [OnAccept]
    after another is neither a sibling of that other block nor below one of
    its siblings. *)
Theorem accepted_branches_exclude_siblings p w0 g calls e i j a d s :
  uniqueIDs w0 = true ->
  heightsIncrease w0 = true ->
  run (Initialize p w0 g) calls = Ok e ->
  i < j ->
  accepted (events e) !! i = Some a ->
  accepted (events e) !! j = Some d ->
  isSibling w0 s a ->
  ~ isAncestor w0 s d.
Proof.
  intros Hu Hh Hrun Hij Hi Hj Hsib.
  pose proof (invariant_run w0 calls _ e (invariant_Initialize p w0 g) Hrun)
    as Hinv.
  apply (sibling_not_above_descendant w0 Hu Hh a s d Hsib).
  exact (inv_order w0 e Hinv i j a d Hij Hi Hj).
Qed.

(** *** A run with two accepts *)

Definition block (id parent height : N) : BlockData :=
  {| ID := id; Parent := parent; Height := height; Timestamp := 0%Z;
     Status := choices.Processing |}.

(** A and B under the accepted frontier, C and D under A. *)
Definition store : World :=
  {| blocks := [block 1 0 1; block 2 0 1; block 3 1 2; block 4 1 2];
     trees := [] |}.

Definition parameters : snowball.Parameters :=
  {| snowball.K := 20; snowball.Alpha := 15; snowball.Beta := 3 |}.

Definition poll : Call := CallRecordPoll {[3%N := 16; 2%N := 4]}.

Definition calls : list Call :=
  [CallAdd (Some 0); CallAdd (Some 1); CallAdd (Some 2); CallAdd (Some 3);
   poll; poll; poll; poll; poll].

Lemma accepted_branches_exclude_siblings_witness :
  uniqueIDs store = true /\
  heightsIncrease store = true /\
  (exists e,
     run (Initialize parameters store 0%N) calls = Ok e /\
     events e = [OnAccept 1%N; OnReject 2%N; OnAccept 3%N; OnReject 4%N] /\
     0 < 1 /\
     accepted (events e) !! 0 = Some 1%N /\
     accepted (events e) !! 1 = Some 3%N) /\
  isSibling store 2%N 1%N /\
  ~ isAncestor store 2%N 3%N.
Proof.
  assert (Hu : uniqueIDs store = true) by (vm_compute; reflexivity).
  assert (Hh : heightsIncrease store = true) by (vm_compute; reflexivity).
  assert (Hrun : exists e,
             run (Initialize parameters store 0%N) calls = Ok e /\
             events e = [OnAccept 1%N; OnReject 2%N; OnAccept 3%N; OnReject 4%N]).
  { eexists. split; [vm_compute; reflexivity | reflexivity]. }
  destruct Hrun as (e & Hrun & Hev).
  assert (H0 : accepted (events e) !! 0 = Some 1%N) by (rewrite Hev; reflexivity).
  assert (H1 : accepted (events e) !! 1 = Some 3%N) by (rewrite Hev; reflexivity).
  assert (Hsib : isSibling store 2%N 1%N).
  { split; [discriminate|]. exists 0%N. split.
    - exists 1, 1%N. reflexivity.
    - exists 0, 1%N. reflexivity. }
  split; [exact Hu|]. split; [exact Hh|].
  split; [exists e; repeat split; (assumption || lia)|].
  split; [exact Hsib|].
  exact (accepted_branches_exclude_siblings parameters store 0%N calls e
           0 1 1%N 3%N 2%N Hu Hh Hrun (Nat.lt_0_1) H0 H1 Hsib).
Defined.

End Safety.

(** * More on the block-tree node *)

Module SnowmanBlockMore.
Import snowman.

Implicit Types (n : snowmanBlock) (w : World) (child : Block).

(** ** When [AddChild] returns *)

(** X1: [AddChild] returns unless the child is nil (or no block), or [sb] is
    non-nil while the [children] map is nil (or [sb] holds no instance).  In
    particular a nil [sb] never panics, whatever [children] is. *)
Theorem AddChild_returns_iff n child w :
  (exists n' w', AddChild n child w = Ok (n', w')) <->
  (exists c, blockOf w child = Ok c) /\
  (sb n = None \/
   exists addr, sb n = Some addr /\ is_Some (trees w !! addr) /\
                is_Some (children n)).
Proof.
  split.
  - intros (n' & w' & H).
    destruct (SnowmanBlock.AddChild_Ok_inv _ _ _ _ _ H) as (c & Hc & Hcase).
    split; [eauto|].
    destruct Hcase as [(Hsb & _) | (addr & t & m & Hsb & Ht & Hm & _)].
    + left. exact Hsb.
    + right. exists addr. rewrite Ht, Hm. eauto.
  - intros [(c & Hc) [Hsb | (addr & Hsb & [t Ht] & [m Hm])]].
    + eexists _, _. exact (SnowmanBlock.AddChild_nil_sb _ _ _ _ Hsb Hc).
    + eexists _, _.
      exact (SnowmanBlock.AddChild_some_sb _ _ _ _ _ _ _ Hsb Ht Hm Hc).
Qed.

Lemma AddChild_returns_iff_witness :
  (exists n' w',
     AddChild SnowmanBlock.genesis (Some 0) SnowmanBlock.sampleWorld
       = Ok (n', w')) /\
  ~ (exists n' w',
       AddChild SnowmanBlock.genesis None SnowmanBlock.sampleWorld
         = Ok (n', w')).
Proof.
  split.
  - apply (proj2 (AddChild_returns_iff SnowmanBlock.genesis (Some 0)
                    SnowmanBlock.sampleWorld)).
    split; [exists SnowmanBlock.blockA; reflexivity | left; reflexivity].
  - intros H.
    apply (proj1 (AddChild_returns_iff SnowmanBlock.genesis None
                    SnowmanBlock.sampleWorld)) in H as [(c & Hc) _].
    discriminate.
Defined.

(** ** The children map as a whole *)

Lemma AddChild_good_node n child w c :
  nodeOK n w = true ->
  blockOf w child = Ok c ->
  exists n' w',
    AddChild n child w = Ok (n', w') /\
    nodeOK n' w' = true /\
    children n' = Some (<[ID c := child]> (default ∅ (children n))).
Proof.
  intros Hok Hc.
  destruct (SnowmanBlock.AddChild_total n child w c Hok Hc)
    as (n' & w' & HA & Hok').
  exists n', w'. split; [exact HA|]. split; [exact Hok'|].
  destruct (SnowmanBlock.AddChild_Ok_inv _ _ _ _ _ HA) as (c' & Hc' & Hcase).
  assert (c' = c) as -> by congruence.
  destruct Hcase as [(Hsb & -> & _) | (addr & t & m & _ & _ & Hm & -> & _)]; cbn.
  - rewrite (SnowmanBlock.nodeOK_None_inv _ _ Hok Hsb). cbn.
    rewrite insert_empty. reflexivity.
  - rewrite Hm. reflexivity.
Qed.

(** X2: on a node in good shape the map after [AddChild] is the map before,
    a nil map counting as empty, with the child put under its identity: the
    children added before are kept, and a child with the identity of an
    earlier one takes its place. *)
Theorem AddChild_children_insert n child w c :
  nodeOK n w = true ->
  blockOf w child = Ok c ->
  exists n' w',
    AddChild n child w = Ok (n', w') /\
    children n' = Some (<[ID c := child]> (default ∅ (children n))).
Proof.
  intros Hok Hc.
  destruct (AddChild_good_node n child w c Hok Hc) as (n' & w' & HA & _ & Hk).
  exists n', w'. split; [exact HA | exact Hk].
Qed.

Lemma AddChild_children_insert_witness :
  nodeOK SnowmanBlock.nodeWithA SnowmanBlock.worldWithA = true /\
  blockOf SnowmanBlock.worldWithA (Some 1) = Ok SnowmanBlock.blockB /\
  exists n' w',
    AddChild SnowmanBlock.nodeWithA (Some 1) SnowmanBlock.worldWithA
      = Ok (n', w') /\
    children n' = Some (<[2%N := Some 1]> {[1%N := Some 0]}).
Proof.
  split; [reflexivity|]. split; [reflexivity|].
  apply (AddChild_children_insert SnowmanBlock.nodeWithA (Some 1)
           SnowmanBlock.worldWithA SnowmanBlock.blockB); reflexivity.
Defined.

(** X3: adding again a child that is in the map already leaves the node as it
    is. *)
Theorem AddChild_again_keeps_node n child w c m :
  nodeOK n w = true ->
  blockOf w child = Ok c ->
  children n = Some m ->
  m !! ID c = Some child ->
  exists w', AddChild n child w = Ok (n, w') /\ blocks w' = blocks w.
Proof.
  intros Hok Hc Hm Hin.
  destruct (sb n) as [addr|] eqn:Hsb.
  - destruct (SnowmanBlock.nodeOK_Some_inv _ _ _ Hok Hsb) as (t & m' & Ht & Hm').
    assert (m' = m) as -> by congruence.
    eexists.
    rewrite (SnowmanBlock.AddChild_some_sb _ _ _ _ _ _ _ Hsb Ht Hm Hc).
    rewrite (insert_id _ _ _ Hin).
    destruct n as [p b f s ch]; cbn in *; subst s ch.
    split; reflexivity.
  - rewrite (SnowmanBlock.nodeOK_None_inv _ _ Hok Hsb) in Hm. discriminate.
Qed.

Lemma AddChild_again_keeps_node_witness :
  nodeOK SnowmanBlock.nodeWithA SnowmanBlock.worldWithA = true /\
  blockOf SnowmanBlock.worldWithA (Some 0) = Ok SnowmanBlock.blockA /\
  children SnowmanBlock.nodeWithA = Some {[1%N := Some 0]} /\
  ({[1%N := Some 0]} : gmap ids.ID Block) !! 1%N = Some (Some 0) /\
  exists w',
    AddChild SnowmanBlock.nodeWithA (Some 0) SnowmanBlock.worldWithA
      = Ok (SnowmanBlock.nodeWithA, w') /\
    blocks w' = blocks SnowmanBlock.worldWithA.
Proof.
  split; [reflexivity|]. split; [reflexivity|]. split; [reflexivity|].
  split; [reflexivity|].
  apply (AddChild_again_keeps_node SnowmanBlock.nodeWithA (Some 0)
           SnowmanBlock.worldWithA SnowmanBlock.blockA {[1%N := Some 0]});
    reflexivity.
Defined.

(** ** A series of calls *)

(** [AddChild] called with one child after the other. *)
Fixpoint addChildren n (cs : list Block) w : result (snowmanBlock * World) :=
  match cs with
  | [] => Ok (n, w)
  | c :: rest => '(n1, w1) ← AddChild n c w; addChildren n1 rest w1
  end.

(** The identity of a child, read from the block store. *)
Definition childID (bs : list BlockData) (c : Block) : ids.ID :=
  match c with
  | Some addr => match bs !! addr with
                 | Some d => ID d
                 | None => 0%N
                 end
  | None => 0%N
  end.

(** The instances a series of calls creates: one when the node has none and
    the series is not empty. *)
Definition created n (cs : list Block) : nat :=
  match sb n, cs with
  | None, _ :: _ => 1
  | _, _ => 0
  end.

Definition live w (c : Block) : Prop := exists d, blockOf w c = Ok d.

Lemma live_same_blocks w w' c : blocks w' = blocks w -> live w c -> live w' c.
Proof. unfold live, blockOf. intros ->. auto. Qed.

Lemma childID_blockOf w c d : blockOf w c = Ok d -> childID (blocks w) c = ID d.
Proof.
  unfold blockOf, deref, childID. destruct c as [addr|]; [|discriminate].
  destruct (blocks w !! addr); [|discriminate]. intros [= ->]. reflexivity.
Qed.

(** X4: a series of [AddChild] calls with live blocks on a node in good shape
    returns.  It creates one snowball instance when the node had none and
    the series is not empty, and none otherwise; it writes no block; and the
    children map ends as the map before (nil counting as empty) with every
    child put under its identity, in the order of the calls. *)
Theorem addChildren_one_instance cs : forall n w,
  nodeOK n w = true ->
  Forall (live w) cs ->
  exists n' w',
    addChildren n cs w = Ok (n', w') /\
    nodeOK n' w' = true /\
    blocks w' = blocks w /\
    length (trees w') = length (trees w) + created n cs /\
    default ∅ (children n') =
      foldl (fun m c => <[childID (blocks w) c := c]> m)
            (default ∅ (children n)) cs.
Proof.
  induction cs as [|c rest IH]; intros n w Hok Hlive.
  - exists n, w. unfold created. cbn. destruct (sb n); repeat split; auto.
  - apply Forall_cons in Hlive as [[d Hd] Hrest].
    destruct (AddChild_good_node n c w d Hok Hd)
      as (n1 & w1 & HA & Hok1 & Hkids).
    destruct (SnowmanBlock.AddChild_Ok_inv _ _ _ _ _ HA) as (d' & Hd' & Hcase).
    assert (d' = d) as -> by congruence.
    assert (Hshape : blocks w1 = blocks w /\
                     length (trees w1) = length (trees w) + created n (c :: rest) /\
                     is_Some (sb n1)).
    { unfold created.
      destruct Hcase as [(-> & -> & ->) | (a & t & m & -> & _ & _ & -> & ->)];
        cbn.
      - rewrite length_app. cbn. repeat split; eauto.
      - rewrite length_insert. repeat split; eauto; lia. }
    destruct Hshape as (Hb & Hlen & [a Hsb1]).
    destruct (IH n1 w1 Hok1) as (n' & w' & HR & Hok' & Hb' & Hlen' & Hkids').
    { eapply Forall_impl; [exact Hrest|]. intros x. apply live_same_blocks, Hb. }
    exists n', w'. cbn [addChildren]. rewrite HA. cbn.
    split; [exact HR|]. split; [exact Hok'|]. split; [congruence|].
    split.
    + assert (created n1 rest = 0) as E
        by (unfold created; rewrite Hsb1; reflexivity).
      rewrite Hlen', Hlen, E. lia.
    + rewrite Hkids', Hkids, Hb. cbn.
      rewrite (childID_blockOf w c d Hd). reflexivity.
Qed.

Lemma addChildren_one_instance_witness :
  nodeOK SnowmanBlock.genesis SnowmanBlock.sampleWorld = true /\
  Forall (live SnowmanBlock.sampleWorld) [Some 0; Some 1; Some 0] /\
  exists n' w',
    addChildren SnowmanBlock.genesis [Some 0; Some 1; Some 0]
      SnowmanBlock.sampleWorld = Ok (n', w') /\
    nodeOK n' w' = true /\
    blocks w' = blocks SnowmanBlock.sampleWorld /\
    length (trees w') = 1 /\
    default ∅ (children n') = <[1%N := Some 0]> (<[2%N := Some 1]> {[1%N := Some 0]}).
Proof.
  assert (H : Forall (live SnowmanBlock.sampleWorld) [Some 0; Some 1; Some 0]).
  { repeat constructor; eexists; reflexivity. }
  split; [reflexivity|]. split; [exact H|].
  destruct (addChildren_one_instance [Some 0; Some 1; Some 0]
              SnowmanBlock.genesis SnowmanBlock.sampleWorld eq_refl H)
    as (n' & w' & H1 & H2 & H3 & H4 & H5).
  exists n', w'. repeat split; assumption.
Defined.

(** ** [AddChild] and [Accepted] *)

(** What [Accepted] answers, or nothing when it panics. *)
Definition answer (r : result (bool * World)) : option bool :=
  match r with
  | Ok (b, _) => Some b
  | Panic => None
  end.

(** X5: adding a child changes the answer of [Accepted] neither for the node
    that got the child nor for any other node. *)
Theorem AddChild_keeps_Accepted n child w n' w' :
  AddChild n child w = Ok (n', w') ->
  answer (Accepted n' w') = answer (Accepted n w) /\
  forall other, answer (Accepted other w') = answer (Accepted other w).
Proof.
  intros H. destruct (SnowmanBlock.AddChild_Ok_inv _ _ _ _ _ H) as (c & _ & Hcase).
  assert (Hb : blocks w' = blocks w /\ blk n' = blk n).
  { destruct Hcase as [(_ & -> & ->) | (? & ? & ? & _ & _ & _ & -> & ->)];
      split; reflexivity. }
  destruct Hb as [Hb Hblk].
  assert (Hany : forall m1 m2, blk m1 = blk m2 ->
                   answer (Accepted m1 w') = answer (Accepted m2 w)).
  { intros m1 m2 E. unfold Accepted, deref. rewrite E, Hb.
    destruct (blk m2) as [addr|]; [|reflexivity].
    destruct (blocks w !! addr); reflexivity. }
  split; [apply Hany, Hblk | intros other; apply Hany; reflexivity].
Qed.

Lemma AddChild_keeps_Accepted_witness :
  exists n' w',
    AddChild SnowmanBlock.nodeOfC (Some 0) SnowmanBlock.sampleWorld
      = Ok (n', w') /\
    answer (Accepted n' w') = Some true /\
    answer (Accepted SnowmanBlock.nodeOfC SnowmanBlock.sampleWorld) = Some true /\
    answer (Accepted SnowmanBlock.nodeOfA w') = Some false.
Proof.
  eexists _, _. split; [reflexivity|].
  match goal with
  | |- answer (Accepted ?n' ?w') = _ /\ _ =>
      destruct (AddChild_keeps_Accepted SnowmanBlock.nodeOfC (Some 0)
                  SnowmanBlock.sampleWorld n' w' eq_refl) as [H1 H2]
  end.
  split; [rewrite H1; reflexivity|]. split; [reflexivity|].
  rewrite H2. reflexivity.
Defined.

(** ** [String] *)








Section String.
Variable fmtParams : snowball.Parameters -> string.
Variable fmtID : ids.ID -> string.
Variable fmtStatus : choices.Status -> string.
Variable fmtHeight : N -> string.
Variable fmtTimestamp : Z -> string.
Variable fmtTree : snowball.Tree -> string.
Variable fmtBlock : BlockData -> string.

End String.



End SnowmanBlockMore.

(** * More on the gossip mempool *)

Module GossipMempoolMore.
Import network.

(** What a batch of [Add] needs of the mempool besides [GossipLaws]: marking
    a transaction dropped, and an [Add] the mempool refuses, bring no
    transaction. *)
Class DropLaws (Tx error M : Type) `{!Mempool Tx error M} : Prop := {
  MarkDropped_Txs : forall m id e t,
    t ∈ Txs (MarkDropped m id e) -> t ∈ Txs m;
  MempoolAdd_refused_Txs : forall m tx e m' t,
    MempoolAdd m tx = (Some e, m') -> t ∈ Txs m' -> t ∈ Txs m
}.

Section props.
Context {Tx error M V B : Type}.
Context `{!Mempool Tx error M, !TxVerifier Tx error V,
          !BloomFilter Tx error B}.
Variable txID : Tx -> ids.ID.
Variable errDuplicateTx : ids.ID -> error.

Abbreviation gossipMempool := (@gossipMempool M V B).
Abbreviation Add := (Add txID errDuplicateTx).
Abbreviation addOne := (addOne txID errDuplicateTx).
Abbreviation AddWithoutVerification := (AddWithoutVerification txID).
Abbreviation stateBefore := (GossipMempool.stateBefore txID errDuplicateTx).

Implicit Types (g : gossipMempool) (tx : Tx) (txs : list Tx).

(** ** Errors of [AddWithoutVerification] *)

(** X7: when [AddWithoutVerification] returns an error, either the mempool
    refused the transaction, which is then marked dropped with that error
    while the filter and the log are untouched, or the reset of the filter
    failed, and then the transaction is in the mempool but no block build
    was requested and nothing was logged. *)
Theorem AddWithoutVerification_error g tx e g' :
  AddWithoutVerification g tx = (Some e, g') ->
  (exists m1,
     MempoolAdd (mempool g) tx = (Some e, m1) /\
     g' = {| mempool := MarkDropped m1 (txID tx) e; log := log g;
             txVerifier := txVerifier g; bloom := bloom g |})
  \/
  (exists m1 reset b2,
     MempoolAdd (mempool g) tx = (None, m1) /\
     ResetBloomFilterIfNeeded (BloomAdd (bloom g) tx)
       (wrapInt (Len m1 * bloomChurnMultiplier)) = (reset, Some e, b2) /\
     g' = {| mempool := m1; log := log g;
             txVerifier := txVerifier g; bloom := b2 |}).
Proof.
  unfold network.AddWithoutVerification.
  destruct (MempoolAdd (mempool g) tx) as [[err|] m1] eqn:HA.
  - intros [= -> <-]. left. exists m1. split; reflexivity.
  - destruct (ResetBloomFilterIfNeeded (BloomAdd (bloom g) tx)
                (wrapInt (Len m1 * bloomChurnMultiplier)))
      as [[reset [e'|]] b2] eqn:HR.
    + intros [= -> <-]. right. exists m1, reset, b2.
      split; [reflexivity|]. split; first [exact HR | reflexivity].
    + destruct reset; discriminate.
Qed.

(** When it returns nil, the mempool took the transaction and a block build
    was requested on the mempool that holds it. *)
Lemma AddWithoutVerification_nil g tx g' :
  AddWithoutVerification g tx = (None, g') ->
  exists m1, MempoolAdd (mempool g) tx = (None, m1) /\
             mempool g' = RequestBuildBlock m1.
Proof.
  unfold network.AddWithoutVerification.
  destruct (MempoolAdd (mempool g) tx) as [[err|] m1] eqn:HA; [discriminate|].
  destruct (ResetBloomFilterIfNeeded (BloomAdd (bloom g) tx)
              (wrapInt (Len m1 * bloomChurnMultiplier)))
    as [[reset [e'|]] b2]; [discriminate|].
  destruct reset; intros [= <-]; exists m1; (split; reflexivity).
Qed.

(** ** What a nil error of [Add] means *)

(** X8: a nil error at an index means that the transaction at that index was not
    in the mempool, had no recorded drop reason, passed [VerifyTx], and was
    taken by the mempool, on which a block build was then requested. *)
Theorem Add_nil_means_added g txs i tx :
  txs !! i = Some tx ->
  (Add g txs).1 !! i = Some None ->
  let gi := stateBefore g txs i in
  Get (mempool gi) (txID tx) = None /\
  GetDropReason (mempool gi) (txID tx) = None /\
  VerifyTx (txVerifier gi) tx = None /\
  exists m1,
    MempoolAdd (mempool gi) tx = (None, m1) /\
    mempool (stateBefore g txs (S i)) = RequestBuildBlock m1.
Proof.
  intros Hi Herr gi.
  destruct (GossipMempool.Add_lookup txID errDuplicateTx g txs i tx Hi)
    as [He Hs].
  fold gi in He, Hs. rewrite He in Herr. injection Herr as Herr.
  rewrite Hs. clear He Hs. revert Herr. unfold network.addOne.
  destruct (Get (mempool gi) (txID tx)); [discriminate|].
  destruct (GetDropReason (mempool gi) (txID tx)); [discriminate|].
  destruct (VerifyTx (txVerifier gi) tx); [discriminate|].
  intros Herr. repeat split.
  destruct (network.AddWithoutVerification txID gi tx) as [e g'] eqn:HA.
  cbn in Herr. subst e. exact (AddWithoutVerification_nil gi tx g' HA).
Qed.

(** ** Turns stopped by a guard *)

(** X9: a transaction that [Has] finds in the mempool gets the duplicate error at
    its index, and one with a recorded drop reason gets that reason; in both
    cases the turn leaves the mempool, the filter and the log as they
    were. *)
Theorem Add_guarded_turn_changes_nothing g txs i tx :
  txs !! i = Some tx ->
  let gi := stateBefore g txs i in
  (Has gi (txID tx) = true ->
   (Add g txs).1 !! i = Some (Some (errDuplicateTx (txID tx))) /\
   stateBefore g txs (S i) = gi) /\
  (forall e,
     Has gi (txID tx) = false ->
     GetDropReason (mempool gi) (txID tx) = Some e ->
     (Add g txs).1 !! i = Some (Some e) /\
     stateBefore g txs (S i) = gi).
Proof.
  intros Hi gi.
  destruct (GossipMempool.Add_lookup txID errDuplicateTx g txs i tx Hi)
    as [He Hs].
  fold gi in He, Hs. rewrite He, Hs. unfold network.addOne, Has.
  split.
  - destruct (Get (mempool gi) (txID tx)); [|discriminate].
    intros _. split; reflexivity.
  - intros e. destruct (Get (mempool gi) (txID tx)); [discriminate|].
    intros _ ->. split; reflexivity.
Qed.

(** ** A batch is its turns in a row *)

(** X10: [Add] on a batch is [Add] on its first part followed by [Add] on the
    rest, from the state the first part leaves: the errors follow one
    another. *)
Theorem Add_app g txs1 txs2 :
  Add g (txs1 ++ txs2) =
    ((Add g txs1).1 ++ (Add (Add g txs1).2 txs2).1,
     (Add (Add g txs1).2 txs2).2).
Proof.
  revert g. induction txs1 as [|tx txs1 IH]; intros g.
  - cbn. destruct (network.Add txID errDuplicateTx g txs2). reflexivity.
  - rewrite <- app_comm_cons, !GossipMempool.Add_cons, IH. reflexivity.
Qed.

(** ** What [Add] never touches *)

(** X11: [Add] leaves the verifier as it is, and the only thing it logs is the
    reset of the filter, at most once per transaction. *)
Theorem Add_keeps_verifier g txs :
  txVerifier (Add g txs).2 = txVerifier g /\
  exists k,
    k <= length txs /\
    log (Add g txs).2 = log g ++ replicate k "resetting bloom filter"%string.
Proof.
  assert (Hone : forall g tx,
             txVerifier (addOne g tx).2 = txVerifier g /\
             exists k, k <= 1 /\
               log (addOne g tx).2 =
                 log g ++ replicate k "resetting bloom filter"%string).
  { intros g0 tx. unfold network.addOne.
    assert (Hsame : forall e : option error,
               txVerifier (e, g0).2 = txVerifier g0 /\
               exists k, k <= 1 /\
                 log (e, g0).2 =
                   log g0 ++ replicate k "resetting bloom filter"%string).
    { intros e. split; [reflexivity|]. exists 0. cbn.
      rewrite app_nil_r. split; [lia | reflexivity]. }
    destruct (Get (mempool g0) (txID tx)); [apply Hsame|].
    destruct (GetDropReason (mempool g0) (txID tx)); [apply Hsame|].
    destruct (VerifyTx (txVerifier g0) tx).
    { cbn. split; [reflexivity|]. exists 0. cbn.
      rewrite app_nil_r. split; [lia | reflexivity]. }
    unfold network.AddWithoutVerification.
    destruct (MempoolAdd (mempool g0) tx) as [[err|] m1].
    { cbn. split; [reflexivity|]. exists 0. cbn.
      rewrite app_nil_r. split; [lia | reflexivity]. }
    destruct (ResetBloomFilterIfNeeded _ _) as [[reset [e'|]] b2].
    { cbn. split; [reflexivity|]. exists 0. cbn.
      rewrite app_nil_r. split; [lia | reflexivity]. }
    destruct reset; cbn; (split; [reflexivity|]).
    - exists 1. split; [lia | reflexivity].
    - exists 0. cbn. rewrite app_nil_r. split; [lia | reflexivity]. }
  revert g. induction txs as [|tx txs IH]; intros g.
  - cbn. split; [reflexivity|]. exists 0. cbn.
    rewrite app_nil_r. split; [lia | reflexivity].
  - rewrite GossipMempool.Add_cons. cbn [snd].
    destruct (Hone g tx) as [Hv (k1 & Hk1 & Hl1)].
    destruct (IH (addOne g tx).2) as [Hv' (k2 & Hk2 & Hl2)].
    split; [congruence|]. exists (k1 + k2). split; [cbn; lia|].
    rewrite Hl2, Hl1, <- app_assoc, replicate_add. reflexivity.
Qed.

End props.

(** ** The invariant on the bloom filter over a batch *)

(** The reset of the filter cannot fail. *)
Definition resetNeverFails {Tx error B : Type} `{!BloomFilter Tx error B}
    : Prop :=
  forall (b : B) (target : Z), (ResetBloomFilterIfNeeded b target).1.2 = None.

Section batch.
Context {Tx error M V B : Type}.
Context `{!Mempool Tx error M, !TxVerifier Tx error V,
          !BloomFilter Tx error B}.
Variable txID : Tx -> ids.ID.
Variable errDuplicateTx : ids.ID -> error.
Context (Added : B -> Tx -> Prop).
Context `{!GossipLaws Tx error M B Added, !DropLaws Tx error M}.
Hypothesis Hreset : resetNeverFails (Tx := Tx) (B := B).

Abbreviation covers := (GossipMempool.bloomCovers (V := V) Added).

Lemma AddWithoutVerification_covers g tx :
  covers g -> covers (network.AddWithoutVerification txID g tx).2.
Proof.
  intros Hinv. unfold network.AddWithoutVerification.
  destruct (MempoolAdd (mempool g) tx) as [[err|] m1] eqn:HA.
  - intros t Ht. cbn in *. apply Hinv.
    apply (MempoolAdd_refused_Txs _ _ _ _ _ HA).
    apply (MarkDropped_Txs _ _ _ _ Ht).
  - pose proof (Hreset (BloomAdd (bloom g) tx)
                  (wrapInt (Len m1 * bloomChurnMultiplier))) as Hnone.
    destruct (ResetBloomFilterIfNeeded (BloomAdd (bloom g) tx)
                (wrapInt (Len m1 * bloomChurnMultiplier)))
      as [[reset err] b2] eqn:HR.
    cbn in Hnone. subst err.
    destruct reset; intros t Ht; cbn in *;
      apply (RequestBuildBlock_Txs (Added := Added)) in Ht.
    + rewrite GossipMempool.Iterate_all.
      apply (GossipMempool.Added_foldl Added). right. exact Ht.
    + apply (Added_not_reset _ _ _ _ HR).
      destruct (MempoolAdd_Txs (Added := Added) _ _ _ _ HA Ht) as [->|Hold].
      * apply Added_BloomAdd.
      * apply Added_BloomAdd_mono. apply Hinv. exact Hold.
Qed.

(** X12: if every transaction in the mempool has been added to the bloom filter
    before a batch is handed to [Add], the same holds after it, whatever the
    errors of the batch, provided the reset of the filter cannot fail. *)
Theorem Add_keeps_bloomCovers g txs :
  covers g -> covers (network.Add txID errDuplicateTx g txs).2.
Proof.
  revert g. induction txs as [|tx txs IH]; intros g Hinv; [exact Hinv|].
  rewrite GossipMempool.Add_cons. cbn [snd]. apply IH.
  unfold network.addOne.
  destruct (Get (mempool g) (txID tx)); [exact Hinv|].
  destruct (GetDropReason (mempool g) (txID tx)); [exact Hinv|].
  destruct (VerifyTx (txVerifier g) tx).
  - intros t Ht. cbn in *. apply Hinv. apply (MarkDropped_Txs _ _ _ _ Ht).
  - apply AddWithoutVerification_covers, Hinv.
Qed.
End batch.

(** ** An accepted transaction is in the filter *)

(** A transaction the mempool takes is among its transactions. *)
Class TakeLaws (Tx error M : Type) `{!Mempool Tx error M} : Prop := {
  MempoolAdd_taken : forall m tx m',
    MempoolAdd m tx = (None, m') -> tx ∈ Txs m'
}.

Section taken.
Context {Tx error M V B : Type}.
Context `{!Mempool Tx error M, !TxVerifier Tx error V,
          !BloomFilter Tx error B}.
Variable txID : Tx -> ids.ID.
Variable errDuplicateTx : ids.ID -> error.
Context (Added : B -> Tx -> Prop).
Context `{!GossipLaws Tx error M B Added, !TakeLaws Tx error M}.

Lemma AddWithoutVerification_nil_in_filter
    (g : @network.gossipMempool M V B) tx g' :
  network.AddWithoutVerification txID g tx = (None, g') ->
  Added (bloom g') tx.
Proof.
  unfold network.AddWithoutVerification.
  destruct (MempoolAdd (mempool g) tx) as [[err|] m1] eqn:HA; [discriminate|].
  destruct (ResetBloomFilterIfNeeded (BloomAdd (bloom g) tx)
              (wrapInt (Len m1 * bloomChurnMultiplier)))
    as [[reset [e|]] b2] eqn:HR; [discriminate|].
  destruct reset; intros [= <-]; cbn.
  - rewrite GossipMempool.Iterate_all.
    apply (GossipMempool.Added_foldl Added). right.
    exact (MempoolAdd_taken _ _ _ HA).
  - apply (Added_not_reset _ _ _ _ HR), Added_BloomAdd.
Qed.

(** X13: a transaction for which [Add] returns nil has been added to the bloom
    filter as its turn leaves it, also when that turn reset the filter: the
    reset filter is filled from the mempool, which holds the transaction. *)
Theorem Add_nil_in_filter (g : @network.gossipMempool M V B) txs i tx :
  txs !! i = Some tx ->
  (network.Add txID errDuplicateTx g txs).1 !! i = Some None ->
  Added (bloom (GossipMempool.stateBefore txID errDuplicateTx g txs (S i))) tx.
Proof.
  intros Hi Herr.
  destruct (GossipMempool.Add_lookup txID errDuplicateTx g txs i tx Hi)
    as [He Hs].
  rewrite He in Herr. injection Herr as Herr. rewrite Hs. clear He Hs.
  revert Herr. unfold network.addOne.
  destruct (Get _ (txID tx)); [discriminate|].
  destruct (GetDropReason _ (txID tx)); [discriminate|].
  destruct (VerifyTx _ tx); [discriminate|].
  intros Herr.
  destruct (network.AddWithoutVerification txID _ tx) as [e g'] eqn:HA.
  cbn in Herr. subst e. cbn.
  exact (AddWithoutVerification_nil_in_filter _ tx g' HA).
Qed.
End taken.

(** ** The size asked of a reset filter *)

(** X14: the target size handed to [ResetBloomFilterIfNeeded] is three times the
    length of the mempool as long as that length is below a third of 2^63;
    at the first length beyond, the product wraps to a negative number. *)
Theorem reset_target_in_range (len : Z) :
  (0 <= len < 3074457345618258603)%Z ->
  wrapInt (len * bloomChurnMultiplier) = (3 * len)%Z /\
  wrapInt (3074457345618258603 * bloomChurnMultiplier)
    = (-9223372036854775807)%Z.
Proof.
  intros H. split; [|reflexivity].
  unfold wrapInt, bloomChurnMultiplier.
  rewrite Z.mod_small by lia. lia.
Qed.

Lemma reset_target_in_range_witness :
  (0 <= 1000 < 3074457345618258603)%Z /\
  wrapInt (1000 * bloomChurnMultiplier) = 3000%Z /\
  wrapInt (3074457345618258603 * bloomChurnMultiplier)
    = (-9223372036854775807)%Z.
Proof.
  split; [lia|]. apply (reset_target_in_range 1000). lia.
Defined.

(** ** Running the sample implementation *)

Import sample.

Lemma sample_drop_laws : DropLaws N string pool.
Proof.
  split.
  - intros m id e t. cbn. unfold poolMarkDropped. case_decide; auto.
  - intros m tx e m' t. cbn. unfold poolAdd.
    repeat case_decide; intros [= <- <-]; auto.
Qed.

Lemma sample_resetNeverFails :
  resetNeverFails (Tx := N) (error := string) (B := filter).
Proof. intros b target. cbn. case_decide; reflexivity. Qed.

(** A full mempool: the next transaction is refused. *)
Definition fullPool : @network.gossipMempool pool (list N) filter :=
  {| mempool := {| unissued := [6%N]; dropped := ∅; capacity := 1 |};
     log := []; txVerifier := [7%N];
     bloom := {| entries := [6%N]; maxCount := 4 |} |}.

Lemma AddWithoutVerification_error_witness :
  AddWithoutVerification txID fullPool 8%N =
    (Some "mempool is full"%string,
     {| mempool := MarkDropped (mempool fullPool) (txID 8%N)
                     "mempool is full"%string;
        log := log fullPool; txVerifier := txVerifier fullPool;
        bloom := bloom fullPool |}) /\
  ((exists m1,
      MempoolAdd (mempool fullPool) 8%N = (Some "mempool is full"%string, m1) /\
      {| mempool := MarkDropped (mempool fullPool) (txID 8%N)
                      "mempool is full"%string;
         log := log fullPool; txVerifier := txVerifier fullPool;
         bloom := bloom fullPool |} =
      {| mempool := MarkDropped m1 (txID 8%N) "mempool is full"%string;
         log := log fullPool; txVerifier := txVerifier fullPool;
         bloom := bloom fullPool |})
   \/
   (exists m1 reset b2,
      MempoolAdd (mempool fullPool) 8%N = (None, m1) /\
      ResetBloomFilterIfNeeded (BloomAdd (bloom fullPool) 8%N)
        (wrapInt (Len m1 * bloomChurnMultiplier))
        = (reset, Some "mempool is full"%string, b2) /\
      {| mempool := MarkDropped (mempool fullPool) (txID 8%N)
                      "mempool is full"%string;
         log := log fullPool; txVerifier := txVerifier fullPool;
         bloom := bloom fullPool |} =
      {| mempool := m1; log := log fullPool;
         txVerifier := txVerifier fullPool; bloom := b2 |})).
Proof.
  assert (E : AddWithoutVerification txID fullPool 8%N =
                (Some "mempool is full"%string,
                 {| mempool := MarkDropped (mempool fullPool) (txID 8%N)
                                 "mempool is full"%string;
                    log := log fullPool; txVerifier := txVerifier fullPool;
                    bloom := bloom fullPool |}))
    by (vm_compute; reflexivity).
  split; [exact E|].
  exact (AddWithoutVerification_error txID fullPool 8%N _ _ E).
Defined.

Lemma Add_nil_means_added_witness :
  [6%N; 7%N; 8%N] !! 2 = Some 8%N /\
  (Add txID duplicateError GossipMempool.start [6%N; 7%N; 8%N]).1 !! 2
    = Some None /\
  Get (mempool (GossipMempool.stateBefore txID duplicateError
                  GossipMempool.start [6%N; 7%N; 8%N] 2)) (txID 8%N) = None /\
  VerifyTx (txVerifier (GossipMempool.stateBefore txID duplicateError
                          GossipMempool.start [6%N; 7%N; 8%N] 2)) 8%N = None.
Proof.
  assert (H : (Add txID duplicateError GossipMempool.start
                 [6%N; 7%N; 8%N]).1 !! 2 = Some None)
    by (vm_compute; reflexivity).
  split; [reflexivity|]. split; [exact H|].
  destruct (Add_nil_means_added txID duplicateError GossipMempool.start
              [6%N; 7%N; 8%N] 2 8%N eq_refl H) as (H1 & _ & H3 & _).
  split; [exact H1 | exact H3].
Defined.

Lemma Add_guarded_turn_changes_nothing_witness :
  [7%N] !! 0 = Some 7%N /\
  Has GossipMempool.inPool (txID 7%N) = true /\
  (Add txID duplicateError GossipMempool.inPool [7%N]).1 !! 0
    = Some (Some (duplicateError (txID 7%N))) /\
  Has GossipMempool.droppedBefore (txID 7%N) = false /\
  GetDropReason (mempool GossipMempool.droppedBefore) (txID 7%N)
    = Some "conflicts with an accepted tx"%string /\
  (Add txID duplicateError GossipMempool.droppedBefore [7%N]).1 !! 0
    = Some (Some "conflicts with an accepted tx"%string).
Proof.
  destruct (Add_guarded_turn_changes_nothing txID duplicateError
              GossipMempool.inPool [7%N] 0 7%N eq_refl) as [H1 _].
  destruct (Add_guarded_turn_changes_nothing txID duplicateError
              GossipMempool.droppedBefore [7%N] 0 7%N eq_refl) as [_ H2].
  split; [reflexivity|]. split; [reflexivity|].
  split; [exact (proj1 (H1 eq_refl))|].
  split; [reflexivity|]. split; [reflexivity|].
  exact (proj1 (H2 _ eq_refl eq_refl)).
Defined.

Lemma Add_keeps_bloomCovers_witness :
  GossipMempool.bloomCovers filterAdded GossipMempool.beforeReset /\
  GossipMempool.bloomCovers filterAdded
    (Add txID duplicateError GossipMempool.beforeReset [6%N; 7%N; 8%N; 9%N]).2.
Proof.
  assert (H0 : GossipMempool.bloomCovers filterAdded GossipMempool.beforeReset).
  { intros t Ht. cbn in Ht. apply list_elem_of_singleton in Ht as ->.
    unfold filterAdded. cbn. left. }
  split; [exact H0|].
  exact (Add_keeps_bloomCovers txID duplicateError filterAdded
           (GossipLaws0 := GossipMempool.sample_laws)
           (DropLaws0 := sample_drop_laws)
           sample_resetNeverFails GossipMempool.beforeReset
           [6%N; 7%N; 8%N; 9%N] H0).
Defined.

Lemma sample_take_laws : TakeLaws N string pool.
Proof.
  split. intros m tx m'. cbn. unfold poolAdd.
  repeat case_decide; intros [= <-]; cbn.
  apply elem_of_app. right. left.
Qed.

Lemma Add_nil_in_filter_witness :
  [8%N] !! 0 = Some 8%N /\
  (Add txID duplicateError GossipMempool.beforeReset [8%N]).1 !! 0
    = Some None /\
  GossipMempool.stateBefore txID duplicateError GossipMempool.beforeReset
    [8%N] 1 = GossipMempool.afterReset /\
  filterAdded (bloom GossipMempool.afterReset) 8%N.
Proof.
  assert (H : (Add txID duplicateError GossipMempool.beforeReset [8%N]).1 !! 0
              = Some None) by (vm_compute; reflexivity).
  assert (E : GossipMempool.stateBefore txID duplicateError
                GossipMempool.beforeReset [8%N] 1 = GossipMempool.afterReset)
    by (vm_compute; reflexivity).
  split; [reflexivity|]. split; [exact H|]. split; [exact E|].
  rewrite <- E.
  exact (Add_nil_in_filter txID duplicateError filterAdded
           (GossipLaws0 := GossipMempool.sample_laws)
           (TakeLaws0 := sample_take_laws)
           GossipMempool.beforeReset [8%N] 0 8%N eq_refl H).
Defined.

End GossipMempoolMore.
